(** * ace-mvp: authentication contract and post query pipeline

    A shallow embedding of the Express backend
    ([backend/src/middleware/auth.ts], [backend/src/routes/auth.ts],
    [backend/src/routes/posts.ts], the Mongoose models) and of the
    serverless functions ([api/_utils/auth.ts], its sibling with
    [authenticateRequest], the delete function), followed by the
    properties of the specification that concern them.

    JavaScript strings are modelled as [string]: sequences of code units
    below 256, each the character of that code point (ASCII and the
    Latin-1 supplement).  Timestamps are modelled as [Z], [undefined]/[null] as [None], exceptions
    by the [result] monad below, and the document store by lists of
    records together with the faults its driver can raise. *)

From Stdlib Require Import ZArith Ascii String DecimalString.
From stdpp Require Import base option list sorting strings gmap.

Local Open Scope string_scope.
Local Open Scope Z_scope.

(** ** Strings *)

Module Str.

(** The code units of a string, and back. *)
Fixpoint chars (s : string) : list ascii :=
  match s with
  | EmptyString => []
  | String c s' => c :: chars s'
  end.

Fixpoint of_chars (l : list ascii) : string :=
  match l with
  | [] => EmptyString
  | c :: l' => String c (of_chars l')
  end.

Definition code (c : ascii) : N := N_of_ascii c.

(** [String.prototype.toLowerCase] on a code unit: the letters A to Z
    and the capital letters of the Latin-1 supplement (U+00C0 to U+00DE
    without the multiplication sign U+00D7) are 32 below their small
    forms.  The caseless comparison of the store pairs the same code
    units. *)
Definition lower_char (c : ascii) : ascii :=
  if (((65 <=? code c) && (code c <=? 90))
      || ((192 <=? code c) && (code c <=? 222) && negb (code c =? 215)))%N
  then ascii_of_N (code c + 32) else c.

(** [String.prototype.toUpperCase] on a code unit.  The capital forms of
    U+00B5, U+00DF and U+00FF lie outside the code units modelled; they
    are left as they are, which no comparison with ['NEED'] or ['HAVE']
    (the only use of the function) can tell from their capital forms. *)
Definition upper_char (c : ascii) : ascii :=
  if (((97 <=? code c) && (code c <=? 122))
      || ((224 <=? code c) && (code c <=? 254) && negb (code c =? 247)))%N
  then ascii_of_N (code c - 32) else c.

Definition toLowerCase (s : string) : string := of_chars (map lower_char (chars s)).
Definition toUpperCase (s : string) : string := of_chars (map upper_char (chars s)).

(** White space removed by [String.prototype.trim], in the range of
    8-bit code units: TAB, LF, VT, FF, CR, SPACE and NBSP. *)
Definition is_space (c : ascii) : bool :=
  (((9 <=? code c) && (code c <=? 13)) || (code c =? 32) || (code c =? 160))%N.

Fixpoint trim_start (l : list ascii) : list ascii :=
  match l with
  | c :: l' => if is_space c then trim_start l' else l
  | [] => []
  end.

Definition trim_chars (l : list ascii) : list ascii :=
  rev (trim_start (rev (trim_start l))).

Definition trim (s : string) : string := of_chars (trim_chars (chars s)).

(** [s.split(sep)] for a one-character separator: the pieces between the
    occurrences of [sep]; never the empty array. *)
Fixpoint split_chars (sep : ascii) (l : list ascii) : list (list ascii) :=
  match l with
  | [] => [[]]
  | c :: l' =>
      if Ascii.eqb c sep then [] :: split_chars sep l'
      else match split_chars sep l' with
           | w :: ws => (c :: w) :: ws
           | [] => [[c]]
           end
  end.

Definition split (sep : ascii) (s : string) : list string :=
  map of_chars (split_chars sep (chars s)).

(** [s.startsWith(p)] *)
Definition startsWith (p s : string) : bool := String.prefix p s.

(** [s.includes(needle)] *)
Definition includes (needle s : string) : bool :=
  match String.index 0 needle s with
  | Some _ => true
  | None => false
  end.

(** A string is falsy exactly when it is empty. *)
Definition truthy (s : string) : bool :=
  match s with EmptyString => false | _ => true end.

End Str.

(** A word: no occurrence of the separator. *)
Definition free_of (sep : ascii) (s : string) : bool :=
  forallb (fun c => negb (Ascii.eqb c sep)) (Str.chars s).

(** [l.join(sep)] *)
Fixpoint join (sep : string) (l : list string) : string :=
  match l with
  | [] => ""
  | [x] => x
  | x :: l' => x ++ sep ++ join sep l'
  end.

(** ** Exceptions and the result monad *)

(** The errors the handlers can catch.  [jsonwebtoken] declares
    [TokenExpiredError] with [JsonWebTokenError.prototype] as prototype,
    so an expired-token error is also an instance of [JsonWebTokenError];
    [CastError] is what Mongoose raises when a value cannot be cast to the
    schema type of the path (here: a string that is not an ObjectId);
    [StoreError] stands for a failure of the driver, with its [name];
    [Error] is a plain [new Error(message)]. *)
Inductive exn : Type :=
| JsonWebTokenError (message : string)
| TokenExpiredError (message : string) (expiredAt : Z)
| CastError (value : string)
| ValidationError (message : string)
| StoreError (name : string)
| Error (message : string).

Definition instanceof_JsonWebTokenError (e : exn) : bool :=
  match e with
  | JsonWebTokenError _ | TokenExpiredError _ _ => true
  | _ => false
  end.

Definition instanceof_TokenExpiredError (e : exn) : bool :=
  match e with
  | TokenExpiredError _ _ => true
  | _ => false
  end.

(** [error.name] *)
Definition error_name (e : exn) : string :=
  match e with
  | JsonWebTokenError _ => "JsonWebTokenError"
  | TokenExpiredError _ _ => "TokenExpiredError"
  | CastError _ => "CastError"
  | ValidationError _ => "ValidationError"
  | StoreError n => n
  | Error _ => "Error"
  end.

Definition error_message (e : exn) : string :=
  match e with
  | JsonWebTokenError m | TokenExpiredError m _ | ValidationError m | Error m => m
  | CastError v => "Cast to ObjectId failed for value " ++ v
  | StoreError n => n
  end.

Inductive result (A : Type) : Type :=
| Ok (a : A)
| Throw (e : exn).
Arguments Ok {A} a.
Arguments Throw {A} e.

Definition bind {A B} (m : result A) (k : A -> result B) : result B :=
  match m with
  | Ok a => k a
  | Throw e => Throw e
  end.

(** [try { m } catch (e) { h e }] *)
Definition try_catch {A} (m : result A) (h : exn -> A) : A :=
  match m with
  | Ok a => a
  | Throw e => h e
  end.

Declare Scope js_scope.
Delimit Scope js_scope with js.
Notation "'let_await' x ':=' m 'in' k" := (bind m (fun x => k))
  (at level 10, x name, m at level 100, k at level 200,
   format "'[v' 'let_await'  x  ':='  m  'in' '/' k ']'") : js_scope.
Local Open Scope js_scope.

(** ** ObjectIds *)

Definition is_hex (c : ascii) : bool :=
  (((48 <=? Str.code c) && (Str.code c <=? 57))
   || ((97 <=? Str.code c) && (Str.code c <=? 102))
   || ((65 <=? Str.code c) && (Str.code c <=? 70)))%N.

(** [/^[0-9a-fA-F]{24}$/.test(s)] *)
Definition isValidObjectId (s : string) : bool :=
  (length (Str.chars s) =? 24)%nat && forallb is_hex (Str.chars s).

(** Mongoose casts the string given for an [_id] path to an ObjectId and
    raises [CastError] when it is not one; [toString()] of an ObjectId is
    its lower-case hexadecimal form, which is how ids are kept here. *)
Definition castObjectId (s : string) : result string :=
  if isValidObjectId s then Ok (Str.toLowerCase s) else Throw (CastError s).

(** ** Data model (models/User.ts, models/Post.ts) *)

Record User : Type := mkUser {
  u_id : string;          (* _id.toString() *)
  u_name : string;
  u_email : string;
  u_password : string     (* bcrypt hash *)
}.

Record Post : Type := mkPost {
  p_id : string;          (* _id.toString() *)
  p_type : string;        (* 'NEED' | 'HAVE' *)
  p_content : string;
  p_userId : string;
  p_imageUrl : option string;
  p_createdAt : Z         (* milliseconds since the epoch *)
}.

(** The two collections, and for each the fault (an error name) its next
    operation fails with, when the store is unreachable or misbehaves. *)
Record Db : Type := mkDb {
  users : list User;
  posts : list Post;
  users_fault : option string;
  posts_fault : option string
}.

Definition available (fault : option string) : result unit :=
  match fault with
  | None => Ok tt
  | Some name => Throw (StoreError name)
  end.

(** Token claims: the payload the routes sign, with the registered claims
    [iat] and [exp] added by [jwt.sign] (seconds since the epoch). *)
Record Claims : Type := mkClaims {
  c_userId : string;
  c_email : string;
  c_username : option string;
  c_iat : Z;
  c_exp : Z
}.

(** Process environment and clock of one request. *)
Record Env : Type := mkEnv {
  JWT_SECRET : option string;   (* process.env.JWT_SECRET *)
  Date_now : Z;                 (* Date.now(), milliseconds *)
  new_ObjectId : string         (* the _id the driver gives the next document *)
}.

(** The library functions the code calls and this development does not
    look into: the MAC and the compact serialization of [jsonwebtoken],
    [bcrypt.compare], the validators of [express-validator] and
    [Date.prototype.toISOString]. *)
Class Externals : Type := {
  hmac : string -> Claims -> string;
  jws_serialize : Claims -> string -> string;
  jws_parse : string -> option (Claims * string);
  bcrypt_compare : string -> string -> bool;
  isEmail : string -> bool;
  normalizeEmail : string -> string;
  toISOString : Z -> string
}.

(** ** Token service (jsonwebtoken) *)

Definition seconds (ms : Z) : Z := ms / 1000.

Definition SEVEN_DAYS : Z := 7 * 24 * 60 * 60.

(** [jwt.sign(payload, secret, { expiresIn: '7d' })] *)
Definition jwt_sign `{Externals} (env : Env) (userId email : string)
    (username : option string) (secret : string) : string :=
  let iat := seconds (Date_now env) in
  let claims := mkClaims userId email username iat (iat + SEVEN_DAYS) in
  jws_serialize claims (hmac secret claims).

(** The claims [jwt.sign] puts in a token issued at [env]. *)
Definition issued_claims (env : Env) (userId email : string) : Claims :=
  mkClaims userId email None (seconds (Date_now env))
    (seconds (Date_now env) + SEVEN_DAYS).

(** [jwt.verify(token, secret)]: the token must be given and parse, then
    carry the signature of its payload under [secret], then not be
    expired ([clockTimestamp >= exp] is expired). *)
Definition jwt_verify `{Externals} (env : Env) (token secret : string) : result Claims :=
  if negb (Str.truthy token) then Throw (JsonWebTokenError "jwt must be provided")
  else
    match jws_parse token with
    | None => Throw (JsonWebTokenError "jwt malformed")
    | Some (claims, signature) =>
        if negb (String.eqb signature (hmac secret claims)) then
          Throw (JsonWebTokenError "invalid signature")
        else if c_exp claims <=? seconds (Date_now env) then
          Throw (TokenExpiredError "jwt expired" (c_exp claims * 1000))
        else Ok claims
    end.

(** ** Store operations (Mongoose) *)

Definition has_id {A} (id_of : A -> string) (oid : string) (a : A) : bool :=
  String.eqb (id_of a) oid.

(** [User.findById(id)] *)
Definition User_findById (db : Db) (id : string) : result (option User) :=
  let_await oid := castObjectId id in
  let_await _ := available (users_fault db) in
  Ok (List.find (has_id u_id oid) (users db)).

(** [User.findOne({ email })] *)
Definition User_findOne_email (db : Db) (email : string) : result (option User) :=
  let_await _ := available (users_fault db) in
  Ok (List.find (fun u => String.eqb (u_email u) email) (users db)).

Fixpoint cast_all (ids : list string) : result (list string) :=
  match ids with
  | [] => Ok []
  | id :: ids' =>
      let_await oid := castObjectId id in
      let_await oids := cast_all ids' in
      Ok (oid :: oids)
  end.

(** [User.find({ _id: { $in: ids } })] *)
Definition User_find_in (db : Db) (ids : list string) : result (list User) :=
  let_await oids := cast_all ids in
  let_await _ := available (users_fault db) in
  Ok (List.filter (fun u => existsb (String.eqb (u_id u)) oids) (users db)).

(** [Post.findById(id)] *)
Definition Post_findById (db : Db) (id : string) : result (option Post) :=
  let_await oid := castObjectId id in
  let_await _ := available (posts_fault db) in
  Ok (List.find (has_id p_id oid) (posts db)).

Fixpoint remove_first {A} (f : A -> bool) (l : list A) : list A :=
  match l with
  | [] => []
  | a :: l' => if f a then l' else a :: remove_first f l'
  end.

(** [Post.findByIdAndDelete(id)]: removes the document found, if any. *)
Definition Post_findByIdAndDelete (db : Db) (id : string) : result Db :=
  let_await oid := castObjectId id in
  let_await _ := available (posts_fault db) in
  Ok (mkDb (users db) (remove_first (has_id p_id oid) (posts db))
           (users_fault db) (posts_fault db)).

(** ** HTTP responses *)

Record UserView : Type := mkUserView {
  uv_id : string;
  uv_name : string;
  uv_email : string
}.

(** A shaped post record (types/post.ts, [Post]). *)
Record PostView : Type := mkPostView {
  pv_id : string;
  pv_type : string;
  pv_content : string;
  pv_userId : string;
  pv_userName : string;
  pv_createdAt : string;       (* ISO-8601 *)
  pv_imageUrl : option string
}.

Inductive Body : Type :=
| Failure (message : string)                          (* { success: false, message } *)
| FailureWith (message : string) (details : list string)
| Success (message : string)                          (* { success: true, message } *)
| JustMessage (message : string)                      (* { message } *)
| AuthSuccess (message : string) (user : UserView) (token : string)
| PostList (posts : list PostView)
| PostCreated (message : string) (data : PostView).

Record Response : Type := mkResponse {
  status : Z;
  body : Body
}.

(** [res.status(code).json({ success: false, message })] *)
Definition fail (code : Z) (message : string) : Response :=
  mkResponse code (Failure message).

(** What a middleware does with a request: answer it, or call [next()]
    after attaching a value to it. *)
Inductive Outcome (A : Type) : Type :=
| Respond (r : Response)
| Next (attached : A).
Arguments Respond {A} r.
Arguments Next {A} attached.

(** [req.user] of the Express backend. *)
Record Identity : Type := mkIdentity {
  user_id : string;
  user_email : string
}.

(** ** backend/src/middleware/auth.ts *)

(** [authHeader && authHeader.split(' ')[1]]: a missing or empty header
    is its own (falsy) value, otherwise the second space-separated piece,
    which may be missing. *)
Definition header_token (authHeader : option string) : option string :=
  match authHeader with
  | None => None
  | Some h => if Str.truthy h then Str.split " " h !! 1%nat else Some h
  end.

(** [!x] for a possibly undefined string. *)
Definition falsy (x : option string) : bool :=
  match x with
  | None => true
  | Some s => negb (Str.truthy s)
  end.

(** The [catch] block of [authenticateToken]. *)
Definition authenticateToken_catch (error : exn) : Outcome Identity :=
  if instanceof_JsonWebTokenError error then
    Respond (fail 401 "Invalid token")
  else if instanceof_TokenExpiredError error then
    Respond (fail 401 "Token expired")
  else
    Respond (fail 500 "Authentication failed").

Definition authenticateToken `{Externals} (env : Env) (db : Db)
    (authHeader : option string) : Outcome Identity :=
  try_catch
    (match header_token authHeader with
     | Some token =>
         if negb (Str.truthy token) then Ok (Respond (fail 401 "Access token required"))
         else if falsy (JWT_SECRET env) then
           Ok (Respond (fail 500 "Server configuration error"))
         else
           let jwtSecret := default "" (JWT_SECRET env) in
           let_await decoded := jwt_verify env token jwtSecret in
           let_await user := User_findById db (c_userId decoded) in
           match user with
           | None => Ok (Respond (fail 401 "User not found"))
           | Some user => Ok (Next (mkIdentity (u_id user) (u_email user)))
           end
     | None => Ok (Respond (fail 401 "Access token required"))
     end)
    authenticateToken_catch.

(** ** api/_utils/auth.ts (serverless variant) *)

(** [req.user] of the serverless functions. *)
Record ApiIdentity : Type := mkApiIdentity {
  api_id : string;
  api_email : string;
  api_username : option string
}.

(** [process.env.JWT_SECRET || 'your-default-secret'] *)
Definition api_secret (env : Env) : string :=
  if falsy (JWT_SECRET env) then "your-default-secret"
  else default "" (JWT_SECRET env).

Definition identity_of_claims (decoded : Claims) : ApiIdentity :=
  mkApiIdentity (c_userId decoded) (c_email decoded) (c_username decoded).

Module ApiUtilsAuth.

(** [verifyToken(req)]: the boolean returned and the [req.user] attached. *)
Definition verifyToken `{Externals} (env : Env) (authHeader : option string)
  : bool * option ApiIdentity :=
  try_catch
    (match authHeader with
     | Some h =>
         if negb (Str.startsWith "Bearer " h) then Ok (false, None)
         else
           let token := default "" (Str.split " " h !! 1%nat) in
           let_await decoded := jwt_verify env token (api_secret env) in
           Ok (true, Some (identity_of_claims decoded))
     | None => Ok (false, None)
     end)
    (fun _ => (false, None)).

End ApiUtilsAuth.

(** ** The second serverless auth helper (verifyToken on a token string,
       authenticateRequest on a request) *)

Module ApiAuthRequest.

Definition verifyToken `{Externals} (env : Env) (token : string) : option Claims :=
  try_catch
    (let_await decoded := jwt_verify env token (api_secret env) in
     Ok (Some decoded))
    (fun _ => None).

Definition authenticateRequest `{Externals} (env : Env) (authHeader : option string)
  : bool * option ApiIdentity :=
  match authHeader with
  | Some h =>
      if negb (Str.startsWith "Bearer " h) then (false, None)
      else
        let token := default "" (Str.split " " h !! 1%nat) in
        match verifyToken env token with
        | Some decoded => (true, Some (identity_of_claims decoded))
        | None => (false, None)
        end
  | None => (false, None)
  end.

End ApiAuthRequest.

(** ** backend/src/routes/auth.ts *)

(** [generateToken(userId, email)] *)
Definition generateToken `{Externals} (env : Env) (userId email : string) : result string :=
  if falsy (JWT_SECRET env) then
    Throw (Error "JWT_SECRET environment variable is not set")
  else
    Ok (jwt_sign env userId email None (default "" (JWT_SECRET env))).

(** The [password] field of a JSON request body: a string, or a value
    of another type (a number, a boolean, an object), of which the
    handler sees the [typeof] and the validators the text [String(value)]. *)
Inductive Field : Type :=
| Text (s : string)
| NotText (type_of shown : string).

Coercion Text : string >-> Field.

(** The text [express-validator] validates. *)
Definition shown_as (value : Field) : string :=
  match value with
  | Text s => s
  | NotText _ shown => shown
  end.

(** [validateLogin] followed by [validationResult(req)]: the messages of
    the failed validators. *)
Definition validateLogin `{Externals} (email : string) (password : Field) : list string :=
  (if isEmail email then [] else ["Please provide a valid email"])
  ++ (if Str.truthy (shown_as password) then [] else ["Password is required"]).

(** [user.comparePassword(candidate)] (models/User.ts):
    [bcrypt.compare(candidate, this.password)], which rejects a
    candidate that is not a string. *)
Definition comparePassword `{Externals} (user : User) (candidatePassword : Field)
  : result bool :=
  match candidatePassword with
  | Text s => Ok (bcrypt_compare s (u_password user))
  | NotText type_of _ => Throw (Error ("Illegal arguments: " ++ type_of ++ ", string"))
  end.

(** The handler of [POST /login]; [email] and [password] are the fields of
    the request body. *)
Definition login `{Externals} (env : Env) (db : Db) (email : string) (password : Field)
  : Response :=
  try_catch
    (let errors := validateLogin email password in
     if negb (bool_decide (errors = [])) then
       Ok (mkResponse 400 (FailureWith "Validation failed" errors))
     else
       let email := normalizeEmail email in
       let_await user := User_findOne_email db (Str.toLowerCase email) in
       match user with
       | None => Ok (fail 401 "Invalid email or password")
       | Some user =>
           let_await isPasswordValid := comparePassword user password in
           if negb isPasswordValid then Ok (fail 401 "Invalid email or password")
           else
             let_await token := generateToken env (u_id user) (u_email user) in
             Ok (mkResponse 200
                   (AuthSuccess "Login successful"
                      (mkUserView (u_id user) (u_name user) (u_email user)) token))
       end)
    (fun _ => fail 500 "Login failed").

(** The two causes of a refused login. *)
Inductive login_refused `{Externals} (db : Db) (email password : string) : Prop :=
| no_such_email :
    List.find (fun u => String.eqb (u_email u) (Str.toLowerCase (normalizeEmail email)))
      (users db) = None ->
    login_refused db email password
| wrong_password user :
    List.find (fun u => String.eqb (u_email u) (Str.toLowerCase (normalizeEmail email)))
      (users db) = Some user ->
    bcrypt_compare password (u_password user) = false ->
    login_refused db email password.

(** ** The pattern language of [$regex]

    A fragment of the regular expressions the store evaluates: literals,
    backslash escapes of punctuation, [.], the anchors [^] and [$],
    groups, alternation and the quantifiers [*], [+], [?].  Bracket
    classes, bounded repetition, [(?...)] groups, backslash followed by a
    letter or digit and stacked quantifiers lie outside the fragment and
    are reported as [Unsupported]; a pattern the engine rejects is a
    [SyntaxError], which the store turns into a failed query.  Before it
    compiles a pattern the store refuses it as such when it holds a NUL or
    is longer than 32764 bytes.  Case folding under [i] is [Str.lower_char]. *)

Module Regex.

Inductive regex : Type :=
| Eps
| Lit (c : ascii)
| AnyChar
| Bol
| Eol
| Seq (r1 r2 : regex)
| Alt (r1 r2 : regex)
| Star (r : regex).

Inductive parsed : Type :=
| Parsed (r : regex) (rest : list ascii)
| SyntaxError (message : string)
| Unsupported.

Definition is_alnum (c : ascii) : bool :=
  (((48 <=? Str.code c) && (Str.code c <=? 57))
   || ((65 <=? Str.code c) && (Str.code c <=? 90))
   || ((97 <=? Str.code c) && (Str.code c <=? 122)))%N.

Definition is_quantifier (c : ascii) : bool :=
  match c with
  | "*"%char | "+"%char | "?"%char => true
  | _ => false
  end.

(** One optional quantifier after an atom. *)
Definition parse_quantifier (r : regex) (s : list ascii) : parsed :=
  match s with
  | q :: rest =>
      if is_quantifier q then
        match rest with
        | q' :: _ => if is_quantifier q' then Unsupported else
            Parsed (match q with
                    | "*"%char => Star r
                    | "+"%char => Seq r (Star r)
                    | _ => Alt r Eps
                    end) rest
        | [] =>
            Parsed (match q with
                    | "*"%char => Star r
                    | "+"%char => Seq r (Star r)
                    | _ => Alt r Eps
                    end) rest
        end
      else Parsed r s
  | [] => Parsed r s
  end.

(** Recursive descent: alternatives of sequences of quantified atoms.
    [fuel] bounds the nesting of calls. *)
Fixpoint parse_alt (fuel : nat) (s : list ascii) : parsed :=
  match fuel with
  | O => Unsupported
  | S fuel' =>
      match parse_seq fuel' s with
      | Parsed r1 ("|"%char :: rest) =>
          match parse_alt fuel' rest with
          | Parsed r2 rest' => Parsed (Alt r1 r2) rest'
          | failure => failure
          end
      | other => other
      end
  end
with parse_seq (fuel : nat) (s : list ascii) : parsed :=
  match fuel with
  | O => Unsupported
  | S fuel' =>
      match s with
      | [] => Parsed Eps s
      | "|"%char :: _ => Parsed Eps s
      | ")"%char :: _ => Parsed Eps s
      | _ =>
          match parse_atom fuel' s with
          | Parsed r1 rest =>
              match parse_quantifier r1 rest with
              | Parsed r1' rest' =>
                  match parse_seq fuel' rest' with
                  | Parsed r2 rest'' => Parsed (Seq r1' r2) rest''
                  | failure => failure
                  end
              | failure => failure
              end
          | failure => failure
          end
      end
  end
with parse_atom (fuel : nat) (s : list ascii) : parsed :=
  match fuel with
  | O => Unsupported
  | S fuel' =>
      match s with
      | [] => SyntaxError "pattern ends where an atom is expected"
      | "\"%char :: [] => SyntaxError "\ at end of pattern"
      | "\"%char :: c :: rest => if is_alnum c then Unsupported else Parsed (Lit c) rest
      | "."%char :: rest => Parsed AnyChar rest
      | "^"%char :: rest => Parsed Bol rest
      | "$"%char :: rest => Parsed Eol rest
      | "("%char :: "?"%char :: _ => Unsupported
      | "("%char :: rest =>
          match parse_alt fuel' rest with
          | Parsed r (")"%char :: rest') => Parsed r rest'
          | Parsed _ _ => SyntaxError "missing )"
          | failure => failure
          end
      | "*"%char :: _ => SyntaxError "nothing to repeat"
      | "+"%char :: _ => SyntaxError "nothing to repeat"
      | "?"%char :: _ => SyntaxError "nothing to repeat"
      | "["%char :: _ => Unsupported
      | "]"%char :: _ => Unsupported
      | "{"%char :: _ => Unsupported
      | "}"%char :: _ => Unsupported
      | c :: rest => Parsed (Lit c) rest
      end
  end.

Inductive compiled : Type :=
| Compiled (r : regex)
| Rejected (message : string)
| OutsideFragment.

(** Compilation of a whole pattern. *)
Definition compile (pattern : list ascii) : compiled :=
  match parse_alt (3 * length pattern + 3) pattern with
  | Parsed r [] => Compiled r
  | Parsed _ (_ :: _) => Rejected "unmatched parentheses"
  | SyntaxError m => Rejected m
  | Unsupported => OutsideFragment
  end.

(** The size of a text in the encoding of the store (UTF-8): a code
    unit from 128 on takes two bytes. *)
Definition utf8_size (l : list ascii) : N :=
  foldr (fun c n => ((if (Str.code c <? 128)%N then 1 else 2) + n)%N) 0%N l.

(** The patterns the store does not refuse as such. *)
Definition admitted (pattern : list ascii) : bool :=
  forallb (fun c => negb (Str.code c =? 0)%N) pattern && (utf8_size pattern <=? 32764)%N.

Definition newline : ascii := ascii_of_N 10.

(** Backtracking matcher in continuation-passing style.  [fold] is the
    canonical form of a character under the options (the identity, or
    case folding under [i]); [start] tells whether the position is the
    start of the subject; [k] receives the position after the match. *)
Fixpoint rmatch (fold : ascii -> ascii) (r : regex) (start : bool) (s : list ascii)
    (k : bool -> list ascii -> bool) : bool :=
  match r with
  | Eps => k start s
  | Lit c =>
      match s with
      | x :: s' => Ascii.eqb (fold c) (fold x) && k false s'
      | [] => false
      end
  | AnyChar =>
      match s with
      | x :: s' => negb (Ascii.eqb x newline) && k false s'
      | [] => false
      end
  | Bol => start && k start s
  | Eol =>
      match s with
      | [] => k start s
      | [x] => Ascii.eqb x newline && k start s
      | _ => false
      end
  | Seq r1 r2 => rmatch fold r1 start s (fun start' s' => rmatch fold r2 start' s' k)
  | Alt r1 r2 => rmatch fold r1 start s k || rmatch fold r2 start s k
  | Star r1 =>
      (fix iterate (n : nat) (start : bool) (s : list ascii) {struct n} : bool :=
         k start s
         || match n with
            | O => false
            | S n' =>
                rmatch fold r1 start s
                  (fun start' s' => (length s' <? length s)%nat && iterate n' start' s')
            end) (length s) start s
  end.

(** An unanchored search: a match starting at some position. *)
Fixpoint search_from (fold : ascii -> ascii) (r : regex) (start : bool) (s : list ascii) : bool :=
  rmatch fold r start s (fun _ _ => true)
  || match s with
     | [] => false
     | _ :: s' => search_from fold r false s'
     end.

Definition search (fold : ascii -> ascii) (r : regex) (s : list ascii) : bool :=
  search_from fold r true s.

(** The regular expression that matches exactly the characters given. *)
Fixpoint literal (l : list ascii) : regex :=
  match l with
  | [] => Eps
  | c :: l' => Seq (Lit c) (literal l')
  end.

End Regex.

(** [{ $regex: pattern, $options: options }] applied to a field value.
    The only option the code uses is [i]. *)
Definition option_fold (options : string) : ascii -> ascii :=
  if existsb (Ascii.eqb "i"%char) (Str.chars options) then Str.lower_char else fun c => c.

Definition regex_test (pattern options value : string) : result bool :=
  if negb (Regex.admitted (Str.chars pattern)) then Throw (StoreError "MongoServerError")
  else
    match Regex.compile (Str.chars pattern) with
    | Regex.Compiled r => Ok (Regex.search (option_fold options) r (Str.chars value))
    | Regex.Rejected m => Throw (StoreError "MongoServerError")
    | Regex.OutsideFragment => Throw (Error "pattern outside the modelled fragment")
    end.

(** [needle] occurs in [hay] up to [fold]: some contiguous piece of [hay]
    has the same canonical form as [needle]. *)
Definition occurs_in (fold : ascii -> ascii) (needle hay : list ascii) : Prop :=
  exists pre mid post, hay = (pre ++ mid ++ post)%list /\ map fold mid = map fold needle.

(** [value] contains [text] as a literal, case-insensitive substring. *)
Definition contains_ci (text value : string) : Prop :=
  occurs_in Str.lower_char (Str.chars text) (Str.chars value).

(** ** Post repository (Mongoose queries on the posts collection) *)

(** The filter object the feed handler builds. *)
Record Query : Type := mkQuery {
  q_userId : option string;
  q_type : option string;
  q_content : option (string * string)    (* { $regex, $options } *)
}.

Definition field_equals (constraint : option string) (value : string) : bool :=
  match constraint with
  | None => true
  | Some v => String.eqb value v
  end.

(** The store checks and compiles the pattern of the filter when it
    receives the query; a pattern it refuses or rejects fails the query
    (a [MongoServerError]) whatever the collection holds. *)
Definition content_predicate (query : Query) : result (string -> bool) :=
  match q_content query with
  | None => Ok (fun _ => true)
  | Some (pattern, options) =>
      if negb (Regex.admitted (Str.chars pattern)) then
        Throw (StoreError "MongoServerError")
      else
        match Regex.compile (Str.chars pattern) with
        | Regex.Compiled r =>
            Ok (fun value => Regex.search (option_fold options) r (Str.chars value))
        | Regex.Rejected m => Throw (StoreError "MongoServerError")
        | Regex.OutsideFragment => Throw (Error "pattern outside the modelled fragment")
        end
  end.

Definition selects (query : Query) (matches_content : string -> bool) (post : Post) : bool :=
  field_equals (q_userId query) (p_userId post)
  && field_equals (q_type query) (p_type post)
  && matches_content (p_content post).

(** [Post.find(query)] *)
Definition Post_find (db : Db) (query : Query) : result (list Post) :=
  let_await matches_content := content_predicate query in
  let_await _ := available (posts_fault db) in
  Ok (List.filter (selects query matches_content) (posts db)).

(** The order of [{ createdAt: -1 }]: [a] may come before [b]. *)
Definition newest_first (a b : Post) : Prop := p_createdAt b <= p_createdAt a.

#[global] Instance newest_first_dec : RelDecision newest_first.
Proof. intros a b. unfold newest_first. apply _. Defined.

(** [.sort({ createdAt: -1 })] *)
Definition sort_createdAt_desc (found : list Post) : list Post :=
  merge_sort newest_first found.

(** [Post.find(query).sort({ createdAt: -1 })] *)
Definition Post_find_sorted (db : Db) (query : Query) : result (list Post) :=
  let_await found := Post_find db query in
  Ok (sort_createdAt_desc found).

(** The validators of the post schema (models/Post.ts), on the values
    after its setters; the messages of the paths that fail, as Mongoose
    words them. *)
Definition PostSchema_validate (type content userId : string) : list string :=
  (if negb (Str.truthy type) then ["type: Path `type` is required."]
   else if negb (String.eqb type "NEED" || String.eqb type "HAVE") then
     ["type: `" ++ type ++ "` is not a valid enum value for path `type`."]
   else [])
  ++ (if negb (Str.truthy content) then ["content: Path `content` is required."]
      else if (1000 <? length (Str.chars content))%nat then
        ["content: Path `content` (`" ++ content
         ++ "`) is longer than the maximum allowed length (1000)."]
      else [])
  ++ (if negb (Str.truthy userId) then ["userId: Path `userId` is required."] else []).

(** [newPost.save()]: schema setters and validators of models/Post.ts,
    then the insertion, with the [_id] and the timestamp of the store. *)
Definition Post_save (env : Env) (db : Db) (type content userId : string)
    (imageUrl : option string) : result (Post * Db) :=
  let content := Str.trim content in
  match PostSchema_validate type content userId with
  | (_ :: _) as failures =>
      Throw (ValidationError ("Post validation failed: " ++ join ", " failures))
  | [] =>
      let_await _ := available (posts_fault db) in
      let saved := mkPost (new_ObjectId env) type content userId imageUrl (Date_now env) in
      Ok (saved, mkDb (users db) (posts db ++ [saved]) (users_fault db) (posts_fault db))
  end.

(** ** backend/src/routes/posts.ts *)

(** [q.trim().replace(/[.*+?^${}()|[\]\\]/g, '\\$&')]: the bracket class of
    the source, and the replacement of each match by a backslash and itself. *)
Definition in_escape_class (c : ascii) : bool :=
  match c with
  | "."%char | "*"%char | "+"%char | "?"%char | "^"%char | "$"%char
  | "{"%char | "}"%char | "("%char | ")"%char | "|"%char
  | "["%char | "]"%char | "\"%char => true
  | _ => false
  end.

Fixpoint escape_chars (l : list ascii) : list ascii :=
  match l with
  | [] => []
  | c :: l' =>
      if in_escape_class c then "\"%char :: c :: escape_chars l'
      else c :: escape_chars l'
  end.

Definition escapeRegex (s : string) : string := Str.of_chars (escape_chars (Str.chars s)).

(** The filter built from the query parameters [userId], [q] and [type]
    (each absent or a string). *)
Definition build_query (userId q type : option string) : Query :=
  mkQuery
    (if falsy userId then None else userId)
    (match type with
     | Some t =>
         if Str.truthy t
            && (String.eqb (Str.toUpperCase t) "NEED" || String.eqb (Str.toUpperCase t) "HAVE")
         then Some (Str.toUpperCase t) else None
     | None => None
     end)
    (match q with
     | Some q =>
         if Str.truthy q && Str.truthy (Str.trim q)
         then Some (escapeRegex (Str.trim q), "i") else None
     | None => None
     end).

(** The free text of a request gives a pattern the store admits: the
    trimmed and escaped text holds no NUL and is not too long. *)
Definition searchable (q : option string) : bool :=
  Regex.admitted (Str.chars (escapeRegex (Str.trim (default "" q)))).

(** What the parameters ask of a post: the author, when [userId] is
    given; the type, when [type] names one of the two in any case; the
    trimmed text of [q] somewhere in the content, in any case. *)
Definition wanted (userId q type : option string) (post : Post) : Prop :=
  (forall u, userId = Some u -> Str.truthy u = true -> p_userId post = u)
  /\ (forall t, type = Some t ->
       Str.toUpperCase t = "NEED" \/ Str.toUpperCase t = "HAVE" ->
       p_type post = Str.toUpperCase t)
  /\ contains_ci (Str.trim (default "" q)) (p_content post).

Definition format_post `{Externals} (userName : Post -> string) (post : Post) : PostView :=
  mkPostView (p_id post) (p_type post) (p_content post) (p_userId post)
    (userName post) (toISOString (p_createdAt post)) (p_imageUrl post).

(** [userMap.set(user._id.toString(), user.name)] for each user, in order. *)
Definition build_userMap (found : list User) : gmap string string :=
  foldl (fun m user => <[u_id user := u_name user]> m) ∅ found.

(** [userMap.get(post.userId) || 'Unknown User'] *)
Definition userName_of (userMap : gmap string string) (post : Post) : string :=
  match userMap !! p_userId post with
  | Some name => if Str.truthy name then name else "Unknown User"
  | None => "Unknown User"
  end.

(** The [catch] block shared by the feed and the delete handlers. *)
Definition posts_catch (error : exn) : Response :=
  if String.eqb (error_name error) "MongoError" then fail 500 "Database connection error"
  else fail 500 "Internal server error".

(** Handler of [GET /api/posts]. *)
Definition get_posts `{Externals} (db : Db) (userId q type : option string) : Response :=
  try_catch
    (let query := build_query userId q type in
     let_await found := Post_find_sorted db query in
     if falsy userId then
       let validUserIds := List.filter isValidObjectId (map p_userId found) in
       let uniqueUserIds := remove_dups validUserIds in
       let users := try_catch (User_find_in db uniqueUserIds) (fun _ => []) in
       let userMap := build_userMap users in
       Ok (mkResponse 200 (PostList (map (format_post (userName_of userMap)) found)))
     else
       let_await user := User_findById db (default "" userId) in
       let userName := match user with
                       | Some user => u_name user
                       | None => "Unknown User"
                       end in
       Ok (mkResponse 200 (PostList (map (format_post (fun _ => userName)) found))))
    posts_catch.

(** [req.file] after [upload.single('image')]. *)
Record UploadedFile : Type := mkUploadedFile {
  filename : string
}.

(** [validatePostData] followed by [validationResult(req)]. *)
Definition validatePostData (type content : string) : list string :=
  (if String.eqb type "NEED" || String.eqb type "HAVE" then []
   else ["Type must be either NEED or HAVE"])
  ++ (if (1 <=? length (Str.chars content))%nat && (length (Str.chars content) <=? 1000)%nat
      then [] else ["Content must be a string between 1 and 1000 characters"]).

(** The image reference of a new post. *)
Definition image_reference (type : string) (file : option UploadedFile) : option string :=
  match file with
  | Some f => if String.eqb type "HAVE" then Some ("/uploads/" ++ filename f) else None
  | None => None
  end.

Definition create_catch (db : Db) (error : exn) : Response * Db :=
  if String.eqb (error_name error) "MulterError" then
    if Str.includes "File too large" (error_message error) then
      (fail 400 "File too large. Maximum size is 5MB.", db)
    else (fail 400 "File upload error", db)
  else if String.eqb (error_message error) "Only image files are allowed" then
    (fail 400 "Only image files are allowed", db)
  else if String.eqb (error_name error) "MongoError" then
    (fail 500 "Database connection error", db)
  else if String.eqb (error_name error) "ValidationError" then
    (mkResponse 400 (FailureWith "Invalid data provided" [error_message error]), db)
  else (fail 500 "Internal server error", db).

(** Handler of [POST /api/posts], after [authenticateToken] has attached
    [user]; [type] and [content] are the body fields, [file] the upload. *)
Definition create_post `{Externals} (env : Env) (db : Db) (user : Identity)
    (type content : string) (file : option UploadedFile) : Response * Db :=
  try_catch
    (let errors := validatePostData type content in
     if negb (bool_decide (errors = [])) then
       Ok (mkResponse 400 (FailureWith "Validation failed" errors), db)
     else
       let userId := user_id user in
       let_await author := User_findById db userId in
       match author with
       | None => Ok (fail 404 "User not found", db)
       | Some author =>
           let imageUrl := image_reference type file in
           let_await saved := Post_save env db type (Str.trim content) userId imageUrl in
           let '(savedPost, db') := saved in
           Ok (mkResponse 201
                 (PostCreated "Post created successfully"
                    (format_post (fun _ => u_name author) savedPost)), db')
       end)
    (create_catch db).

(** Handler of [DELETE /api/posts/:id], after [authenticateToken]. *)
Definition delete_post (db : Db) (user : Identity) (id : string) : Response * Db :=
  try_catch
    (let userId := user_id user in
     let_await found := Post_findById db id in
     match found with
     | None => Ok (fail 404 "Post not found", db)
     | Some post =>
         if negb (String.eqb (p_userId post) userId) then
           Ok (fail 403 "You can only delete your own posts", db)
         else
           let_await db' := Post_findByIdAndDelete db id in
           Ok (mkResponse 200 (Success "Post deleted successfully"), db')
     end)
    (fun error => (posts_catch error, db)).

(** The routes with their middleware chain. *)
Definition POST_posts `{Externals} (env : Env) (db : Db) (authHeader : option string)
    (type content : string) (file : option UploadedFile) : Response * Db :=
  match authenticateToken env db authHeader with
  | Respond r => (r, db)
  | Next user => create_post env db user type content file
  end.

Definition DELETE_posts_id `{Externals} (env : Env) (db : Db) (authHeader : option string)
    (id : string) : Response * Db :=
  match authenticateToken env db authHeader with
  | Respond r => (r, db)
  | Next user => delete_post db user id
  end.

(** The users the batch lookup returns, or none when it fails. *)
Definition hydration_users (db : Db) (found : list Post) : list User :=
  try_catch
    (User_find_in db (remove_dups (List.filter isValidObjectId (map p_userId found))))
    (fun _ => []).

(** What the store guarantees of the users collection: ids are unique
    and are ObjectIds in their string form, and (schema of models/User.ts,
    [name] required) names are not empty. *)
Definition users_well_formed (db : Db) : Prop :=
  NoDup (map u_id (users db))
  /\ forall u, u ∈ users db ->
       castObjectId (u_id u) = Ok (u_id u) /\ Str.truthy (u_name u) = true.

(** What the store guarantees of the posts collection: ids are unique. *)
Definition posts_well_formed (db : Db) : Prop :=
  NoDup (map p_id (posts db)).

(** ** The serverless delete function (DELETE /api/posts/[id])

    Its ownership check is commented out in the source
    ([// Verify ownership (implement your auth logic here)]); the request
    only has to carry a header that starts with [Bearer ].  Its bodies
    are [{ message }]. *)

Module ApiPostsId.

Definition handler (db : Db) (authHeader : option string) (id : string) : Response * Db :=
  try_catch
    (if negb (Str.truthy id) then
       Ok (mkResponse 400 (JustMessage "Post ID is required"), db)
     else if negb (match authHeader with
                   | Some h => Str.startsWith "Bearer " h
                   | None => false
                   end) then Ok (mkResponse 401 (JustMessage "Unauthorized"), db)
     else
       let_await found := Post_findById db id in
       match found with
       | None => Ok (mkResponse 404 (JustMessage "Post not found"), db)
       | Some post =>
           let_await db' := Post_findByIdAndDelete db id in
           Ok (mkResponse 200 (JustMessage "Post deleted successfully"), db')
       end)
    (fun _ => (mkResponse 500 (JustMessage "Internal server error"), db)).

End ApiPostsId.

(** ** A concrete instance, for examples

    A toy MAC and a table-driven token codec stand in for the libraries;
    two users, three posts. *)

Module Demo.

Definition show (z : Z) : string := NilZero.string_of_int (Z.to_int z).

Definition toy_hmac (secret : string) (c : Claims) : string :=
  secret ++ "/" ++ c_userId c ++ "/" ++ c_email c ++ "/" ++ show (c_exp c).

Definition toy_serialize (c : Claims) (signature : string) : string :=
  c_userId c ++ "." ++ show (c_exp c) ++ "." ++ signature.

Definition secret : string := "s3cret".

Definition ann_id : string := "64f1a2b3c4d5e6f708090a0b".
Definition bob_id : string := "64f1a2b3c4d5e6f708090a0c".
Definition carl_id : string := "64f1a2b3c4d5e6f708090a0d".   (* no such user *)

Definition ann : User := mkUser ann_id "Ann" "a@x.com" "hash:secret1".
Definition bob : User := mkUser bob_id "Bob" "b@x.com" "hash:hunter22".

Definition issued_at : Z := 1700000000.

Definition ann_claims : Claims :=
  mkClaims ann_id "a@x.com" None issued_at (issued_at + SEVEN_DAYS).
Definition carl_claims : Claims :=
  mkClaims carl_id "c@x.com" None issued_at (issued_at + SEVEN_DAYS).
Definition old_claims : Claims :=
  mkClaims ann_id "a@x.com" None (issued_at - 2 * SEVEN_DAYS) (issued_at - SEVEN_DAYS).

Definition ann_token : string := toy_serialize ann_claims (toy_hmac secret ann_claims).
Definition carl_token : string := toy_serialize carl_claims (toy_hmac secret carl_claims).
Definition expired_token : string := toy_serialize old_claims (toy_hmac secret old_claims).
Definition forged_token : string := toy_serialize ann_claims "forged".

Definition token_table : list (string * (Claims * string)) :=
  [ (ann_token, (ann_claims, toy_hmac secret ann_claims));
    (carl_token, (carl_claims, toy_hmac secret carl_claims));
    (expired_token, (old_claims, toy_hmac secret old_claims));
    (forged_token, (ann_claims, "forged")) ].

Definition toy_parse (token : string) : option (Claims * string) :=
  snd <$> List.find (fun entry => String.eqb (fst entry) token) token_table.

Definition externals : Externals := {|
  hmac := toy_hmac;
  jws_serialize := toy_serialize;
  jws_parse := toy_parse;
  bcrypt_compare := fun candidate hash => String.eqb hash ("hash:" ++ candidate);
  isEmail := Str.includes "@";
  normalizeEmail := Str.toLowerCase;
  toISOString := show
|}.

(** One hour after the tokens were issued. *)
Definition env : Env :=
  mkEnv (Some secret) ((issued_at + 3600) * 1000) "64f1a2b3c4d5e6f708090aff".

Definition need_office : Post :=
  mkPost "64f1a2b3c4d5e6f708090b01" "NEED" "need office space" ann_id None 1000.
Definition have_desk : Post :=
  mkPost "64f1a2b3c4d5e6f708090b02" "HAVE" "have a.*b desk" bob_id (Some "/uploads/desk.png") 3000.
Definition orphan : Post :=
  mkPost "64f1a2b3c4d5e6f708090b03" "NEED" "axxb (x" "user123" None 2000.

Definition db : Db := mkDb [ann; bob] [need_office; have_desk; orphan] None None.

(** A free text of one code unit, NUL: [GET /api/posts?q=%00]. *)
Definition nul_text : string := String Ascii.zero "".

Definition ann_identity : Identity := mkIdentity ann_id "a@x.com".
Definition bob_identity : Identity := mkIdentity bob_id "b@x.com".

End Demo.

(** ** Registration (backend/src/routes/auth.ts, models/User.ts) *)

(** [bcrypt.hash(password, salt)] *)
Class Bcrypt : Type := {
  bcrypt_hash : string -> string -> string
}.

(** The pattern of the [email] path of the user schema,
    [/^\w+([.-]?\w+)*@\w+([.-]?\w+)*(\.\w{2,3})+$/], as a regular
    expression over character classes with its matcher. *)
Module EmailPattern.

Inductive rx : Type :=
| Empty
| Class (f : ascii -> bool)
| Then (a b : rx)
| Either (a b : rx)
| Repeat (a : rx).

(** [run r s k]: some match of [r] at the start of [s] leaves a rest
    accepted by [k]. *)
Fixpoint run (r : rx) (s : list ascii) (k : list ascii -> bool) : bool :=
  match r with
  | Empty => k s
  | Class f =>
      match s with
      | c :: s' => f c && k s'
      | [] => false
      end
  | Then a b => run a s (fun s' => run b s' k)
  | Either a b => run a s k || run b s k
  | Repeat a =>
      (fix iterate (n : nat) (s : list ascii) {struct n} : bool :=
         k s
         || match n with
            | O => false
            | S n' => run a s (fun s' => (length s' <? length s)%nat && iterate n' s')
            end) (length s) s
  end.

(** [\w] *)
Definition is_word (c : ascii) : bool :=
  (((48 <=? Str.code c) && (Str.code c <=? 57))
   || ((65 <=? Str.code c) && (Str.code c <=? 90))
   || ((97 <=? Str.code c) && (Str.code c <=? 122))
   || (Str.code c =? 95))%N.

Definition is_char (x : ascii) (c : ascii) : bool := Ascii.eqb c x.

(** [[.-]] *)
Definition is_dot_or_dash (c : ascii) : bool := is_char "." c || is_char "-" c.

Definition plus (r : rx) : rx := Then r (Repeat r).
Definition opt (r : rx) : rx := Either r Empty.

(** [\w+([.-]?\w+)*] *)
Definition words : rx :=
  Then (plus (Class is_word))
       (Repeat (Then (opt (Class is_dot_or_dash)) (plus (Class is_word)))).

(** [\.\w{2,3}] *)
Definition suffix : rx :=
  Then (Class (is_char "."))
       (Then (Class is_word) (Then (Class is_word) (opt (Class is_word)))).

Definition pattern : rx :=
  Then words (Then (Class (is_char "@")) (Then words (plus suffix))).

(** [pattern.test(s)]: the anchors make it a match of the whole string. *)
Definition test (s : string) : bool :=
  run pattern (Str.chars s) (fun rest => match rest with [] => true | _ => false end).

(** The characters some class of [r] accepts. *)
Fixpoint accepts (r : rx) (c : ascii) : bool :=
  match r with
  | Empty => false
  | Class f => f c
  | Then a b | Either a b => accepts a c || accepts b c
  | Repeat a => accepts a c
  end.

End EmailPattern.

(** [validateRegistration] followed by [validationResult(req)]. *)
Definition validateRegistration `{Externals} (name email password : string) : list string :=
  (if (2 <=? length (Str.chars name))%nat && (length (Str.chars name) <=? 50)%nat
   then [] else ["Name must be between 2 and 50 characters"])
  ++ (if isEmail email then [] else ["Please provide a valid email"])
  ++ (if (6 <=? length (Str.chars password))%nat
      then [] else ["Password must be at least 6 characters long"]).

(** The validators of the user schema, on the values after its setters;
    the messages of the paths that fail. *)
Definition UserSchema_validate (name email password : string) : list string :=
  (if negb (Str.truthy name) then ["name: Path `name` is required."]
   else if (50 <? length (Str.chars name))%nat then
     ["name: Path `name` (`" ++ name ++ "`) is longer than the maximum allowed length (50)."]
   else [])
  ++ (if negb (Str.truthy email) then ["email: Path `email` is required."]
      else if negb (EmailPattern.test email) then ["email: Please enter a valid email"]
      else [])
  ++ (if negb (Str.truthy password) then ["password: Path `password` is required."]
      else if (length (Str.chars password) <? 6)%nat then
        ["password: Path `password` (`" ++ password
         ++ "`) is shorter than the minimum allowed length (6)."]
      else []).

(** What [newUser.save()] comes to. *)
Inductive UserSaved : Type :=
| Inserted (savedUser : User) (db' : Db)
| DuplicateKey                       (* error.code === 11000 *)
| SaveFailed (error : exn).

(** [new User({ name, email, password }).save()]: the setters of the
    schema ([trim] on the name; [trim] and [lowercase] on the email), its
    validators, the [pre('save')] hook that replaces the password by its
    hash under the salt drawn for it, then the insertion, which the
    unique index on [email] refuses when a user has that email. *)
Definition User_save `{Bcrypt} (env : Env) (salt : string) (db : Db)
    (name email password : string) : UserSaved :=
  let name := Str.trim name in
  let email := Str.toLowerCase (Str.trim email) in
  match UserSchema_validate name email password with
  | (_ :: _) as failures =>
      SaveFailed (ValidationError ("User validation failed: " ++ join ", " failures))
  | [] =>
      let hashed := bcrypt_hash password salt in
      match users_fault db with
      | Some fault => SaveFailed (StoreError fault)
      | None =>
          if existsb (fun u => String.eqb (u_email u) email) (users db) then DuplicateKey
          else
            let saved := mkUser (new_ObjectId env) name email hashed in
            Inserted saved (mkDb (users db ++ [saved]) (posts db)
                              (users_fault db) (posts_fault db))
      end
  end.

(** The [catch] block of the registration handler, for the errors other
    than the duplicate key. *)
Definition register_catch (error : exn) : Response :=
  if String.eqb (error_name error) "ValidationError" then
    mkResponse 400 (FailureWith "Invalid data provided" [error_message error])
  else fail 500 "Registration failed".

(** The handler of [POST /register]; [name], [email] and [password] are
    the fields of the request body, [salt] the salt [bcrypt.genSalt(12)]
    draws. *)
Definition register `{Externals} `{Bcrypt} (env : Env) (salt : string) (db : Db)
    (name email password : string) : Response * Db :=
  let errors := validateRegistration name email password in
  if negb (bool_decide (errors = [])) then
    (mkResponse 400 (FailureWith "Validation failed" errors), db)
  else
    let email := normalizeEmail email in
    match User_findOne_email db (Str.toLowerCase email) with
    | Throw error => (register_catch error, db)
    | Ok (Some existingUser) => (fail 409 "User with this email already exists", db)
    | Ok None =>
        match User_save env salt db (Str.trim name) (Str.trim (Str.toLowerCase email))
                password with
        | DuplicateKey => (fail 409 "User with this email already exists", db)
        | SaveFailed error => (register_catch error, db)
        | Inserted savedUser db' =>
            match generateToken env (u_id savedUser) (u_email savedUser) with
            | Throw error => (register_catch error, db')
            | Ok token =>
                (mkResponse 201
                   (AuthSuccess "User registered successfully"
                      (mkUserView (u_id savedUser) (u_name savedUser) (u_email savedUser))
                      token), db')
            end
        end
    end.

(** ** Client session (frontend/src/utils/auth.ts, contexts/AuthContext.tsx) *)

(** What the browser provides: the JSON values [JSON.parse] returns, with
    their truthiness; [JSON.stringify] of the user of a response and the
    value that user is once the response is parsed; and, for a segment of
    a token, [JSON.parse(atob(segment)).exp] when both calls succeed and
    the result is a number (an integer number of seconds), [None]
    otherwise. *)
Class Browser : Type := {
  Json : Type;
  JSON_parse : string -> option Json;       (* None: it throws *)
  json_truthy : Json -> bool;
  json_of_user : UserView -> Json;
  JSON_stringify_user : UserView -> string;
  payload_exp : string -> option Z
}.

Definition TOKEN_KEY : string := "ace_auth_token".
Definition USER_KEY : string := "ace_user".

(** [localStorage] is a map from keys to strings. *)
Definition getToken (storage : gmap string string) : option string :=
  storage !! TOKEN_KEY.

Definition setToken (token : string) (storage : gmap string string) : gmap string string :=
  <[TOKEN_KEY := token]> storage.

Definition removeToken (storage : gmap string string) : gmap string string :=
  delete TOKEN_KEY storage.

(** [getUser()]: [None] when [JSON.parse] throws, otherwise the value
    parsed, or [null] (here [None]) when nothing truthy is stored. *)
Definition getUser `{Browser} (storage : gmap string string) : option (option Json) :=
  match storage !! USER_KEY with
  | Some userStr => if Str.truthy userStr then Some <$> JSON_parse userStr else Some None
  | None => Some None
  end.

Definition setUser (userStr : string) (storage : gmap string string) : gmap string string :=
  <[USER_KEY := userStr]> storage.

Definition removeUser (storage : gmap string string) : gmap string string :=
  delete USER_KEY storage.

(** [isAuthenticated()] at the time [now] (milliseconds):
    [payload.exp > Date.now() / 1000] on the second segment of the token;
    every failure on the way is caught and answered [false]. *)
Definition isAuthenticated `{Browser} (now : Z) (storage : gmap string string) : bool :=
  match getToken storage with
  | Some token =>
      if negb (Str.truthy token) then false
      else match Str.split "." token !! 1%nat with
           | Some segment =>
               match payload_exp segment with
               | Some exp => now <? exp * 1000
               | None => false
               end
           | None => false
           end
  | None => false
  end.

(** [logout()] of utils/auth.ts *)
Definition logout (storage : gmap string string) : gmap string string :=
  removeUser (removeToken storage).

(** [getAuthHeader()]: the [Authorization] header, when there is one. *)
Definition getAuthHeader (storage : gmap string string) : option string :=
  match getToken storage with
  | Some token => if Str.truthy token then Some ("Bearer " ++ token) else None
  | None => None
  end.

(** The state of the [AuthProvider]: the local storage of the browser
    and the two state variables. *)
Record Session `{Browser} : Type := mkSession {
  storage : gmap string string;
  user : option Json;
  isLoading : bool
}.
Arguments mkSession {_} _ _ _.

(** [initializeAuth()], run once when the provider mounts; [None] when
    [getUser] throws, which nothing catches. *)
Definition initializeAuth `{Browser} (now : Z) (s : Session) : option Session :=
  match getUser (storage s) with
  | None => None
  | Some storedUser =>
      let token_ok := match getToken (storage s) with
                      | Some token => Str.truthy token
                      | None => false
                      end in
      let user_ok := match storedUser with
                     | Some value => json_truthy value
                     | None => false
                     end in
      if token_ok && user_ok && isAuthenticated now (storage s) then
        Some (mkSession (storage s) storedUser false)
      else
        Some (mkSession (removeUser (removeToken (storage s))) (user s) false)
  end.

(** [logout()] of the provider. *)
Definition provider_logout `{Browser} (s : Session) : Session :=
  mkSession (removeUser (removeToken (storage s))) None (isLoading s).

(** The fields of a parsed response body the provider reads. *)
Definition data_message (b : Body) : option string :=
  match b with
  | Failure m | FailureWith m _ | Success m | JustMessage m | AuthSuccess m _ _
  | PostCreated m _ => Some m
  | PostList _ => None
  end.

Definition data_token (b : Body) : option string :=
  match b with
  | AuthSuccess _ _ token => Some token
  | _ => None
  end.

Definition data_user (b : Body) : option UserView :=
  match b with
  | AuthSuccess _ user _ => Some user
  | _ => None
  end.

(** [response.ok] *)
Definition response_ok (r : Response) : bool := (200 <=? status r) && (status r <=? 299).

(** What [login] of the provider comes to, given the response of the
    server: the new session, or the error thrown to the form. *)
Inductive LoginResult `{Browser} : Type :=
| SignedIn (s : Session)
| LoginError (message : string).
Arguments SignedIn {_} _.
Arguments LoginError {_} _.

(** [login(email, password)] of the provider once [fetch] has returned
    [response].  An absent field is [undefined], which [localStorage]
    stores as the text ["undefined"]. *)
Definition provider_login `{Browser} (response : Response) (s : Session) : LoginResult :=
  if negb (response_ok response) then
    LoginError
      (match data_message (body response) with
       | Some m =>
           if Str.truthy m then m
           else "Login failed (" ++ NilZero.string_of_int (Z.to_int (status response)) ++ ")"
       | None => "Login failed (" ++ NilZero.string_of_int (Z.to_int (status response)) ++ ")"
       end)
  else
    SignedIn
      (mkSession
         (setUser (match data_user (body response) with
                   | Some u => JSON_stringify_user u
                   | None => "undefined"
                   end)
            (setToken (default "undefined" (data_token (body response))) (storage s)))
         (json_of_user <$> data_user (body response))
         (isLoading s)).

(** ** The serverless posts function (GET and POST /api/posts)

    Its responses are [{ message }], the list of posts, or
    [{ success: true, data }].  The user model of this variant
    (api/_utils/models/User.ts) differs from the one of the Express
    backend: the display name is the field [username].  The functions
    below therefore read their own users collection.  [verifyToken] is
    the function the file imports from ['../_utils/auth'], that is
    [verifyToken(req)] of api/_utils/auth.ts.  The connection to the
    store is taken as established. *)

Module ApiPosts.

Inductive ApiBody : Type :=
| Message (message : string)
| Posts (posts : list PostView)
| Created (data : PostView)
| NoBody.

Record ApiResponse : Type := mkApiResponse {
  api_status : Z;
  api_body : ApiBody
}.

(** A user document as the serverless model reads it. *)
Record ApiUser : Type := mkApiUser {
  au_id : string;          (* _id.toString() *)
  au_username : string;
  au_email : string;
  au_password : string
}.

(** The store of the serverless functions: its users, the posts, and
    the fault of each collection. *)
Record ApiDb : Type := mkApiDb {
  api_users : list ApiUser;
  api_posts : list Post;
  api_users_fault : option string;
  api_posts_fault : option string
}.

(** The posts collection, for the operations of the Post model, which
    never look at the users. *)
Definition posts_of (adb : ApiDb) : Db :=
  mkDb [] (api_posts adb) None (api_posts_fault adb).

(** [User.findById(id)] *)
Definition User_findById (adb : ApiDb) (id : string) : result (option ApiUser) :=
  let_await oid := castObjectId id in
  let_await _ := available (api_users_fault adb) in
  Ok (List.find (has_id au_id oid) (api_users adb)).

(** [User.find({ _id: { $in: ids } })] *)
Definition User_find_in (adb : ApiDb) (ids : list string) : result (list ApiUser) :=
  let_await oids := cast_all ids in
  let_await _ := available (api_users_fault adb) in
  Ok (List.filter (fun u => existsb (String.eqb (au_id u)) oids) (api_users adb)).

(** [new Map(users.map(user => [user._id.toString(), user.username]))] *)
Definition build_userMap (found : list ApiUser) : gmap string string :=
  foldl (fun m user => <[au_id user := au_username user]> m) ∅ found.

(** [cloudinary.uploader.upload(image, ...)]: the [secure_url] of the
    stored image, or an exception. *)
Class Cloudinary : Type := {
  cloudinary_upload : string -> result string
}.

Inductive Method : Type := GET | POST | OPTIONS | OtherMethod.

(** [handleGet]: the body of the Express feed without the [try] around
    the lookup of the users; what it throws is left to the caller. *)
Definition handleGet `{Externals} (adb : ApiDb) (userId q type : option string)
  : result ApiResponse :=
  let query := build_query userId q type in
  let_await found := Post_find_sorted (posts_of adb) query in
  if falsy userId then
    let validUserIds := List.filter isValidObjectId (map p_userId found) in
    let uniqueUserIds := remove_dups validUserIds in
    let_await users := User_find_in adb uniqueUserIds in
    let userMap := build_userMap users in
    Ok (mkApiResponse 200 (Posts (map (format_post (userName_of userMap)) found)))
  else
    let_await user := User_findById adb (default "" userId) in
    let userName := match user with
                    | Some user => au_username user
                    | None => "Unknown User"
                    end in
    Ok (mkApiResponse 200 (Posts (map (format_post (fun _ => userName)) found))).

(** The validators of the schema of api/_utils/models/Post.ts: [type]
    required and in the enumeration, [content] and [userId] required. *)
Definition PostSchema_validate (type content userId : string) : list string :=
  (if negb (Str.truthy type) then ["type: Path `type` is required."]
   else if negb (String.eqb type "NEED" || String.eqb type "HAVE") then
     ["type: `" ++ type ++ "` is not a valid enum value for path `type`."]
   else [])
  ++ (if negb (Str.truthy content) then ["content: Path `content` is required."] else [])
  ++ (if negb (Str.truthy userId) then ["userId: Path `userId` is required."] else []).

(** [newPost.save()]; an [undefined] [userId] is the empty string here. *)
Definition Post_save (env : Env) (adb : ApiDb) (type content userId : string)
    (imageUrl : option string) : result (Post * ApiDb) :=
  let content := Str.trim content in
  match PostSchema_validate type content userId with
  | (_ :: _) as failures =>
      Throw (ValidationError ("Post validation failed: " ++ join ", " failures))
  | [] =>
      let_await _ := available (api_posts_fault adb) in
      let saved := mkPost (new_ObjectId env) type content userId imageUrl (Date_now env) in
      Ok (saved, mkApiDb (api_users adb) (api_posts adb ++ [saved])
                   (api_users_fault adb) (api_posts_fault adb))
  end.

(** What [verifyToken] of api/_utils/auth.ts is called with: a request,
    of which it reads the [authorization] header, or, in [handlePost]
    below, the token itself, a string. *)
Inductive Argument : Type :=
| Request (authHeader : option string)
| StringValue (s : string).

(** [verifyToken(req)], the boolean it returns.  On a string,
    [req.headers] is [undefined] and reading [authorization] of it
    throws a TypeError inside the [try] of the function, whose [catch]
    returns [false]. *)
Definition verifyToken `{Externals} (env : Env) (req : Argument) : bool :=
  match req with
  | Request authHeader => (ApiUtilsAuth.verifyToken env authHeader).1
  | StringValue _ =>
      try_catch
        (Throw (Error "Cannot read properties of undefined (reading 'authorization')"))
        (fun _ => false)
  end.

(** [handlePost]; [type], [content] and [image] are the fields of the
    body (an absent one is the empty string, resp. [None]).  [decoded] is
    the boolean [verifyToken] returns, so that [decoded.userId] is
    [undefined].  The store is returned with the response; when the
    function throws after the post is saved, the store keeps the post. *)
Definition handlePost `{Externals} `{Cloudinary} (env : Env) (adb : ApiDb)
    (authHeader : option string) (type content : string) (image : option string)
  : result ApiResponse * ApiDb :=
  match match authHeader with
        | Some h => Str.split " " h !! 1%nat
        | None => None
        end with
  | None => (Ok (mkApiResponse 401 (Message "Unauthorized")), adb)
  | Some token =>
      if negb (Str.truthy token) then (Ok (mkApiResponse 401 (Message "Unauthorized")), adb)
      else
        let decoded := verifyToken env (StringValue token) in
        if negb decoded then (Ok (mkApiResponse 401 (Message "Invalid token")), adb)
        else
          let decoded_userId : option string := None in
          if negb (Str.truthy type)
             || negb (String.eqb type "NEED" || String.eqb type "HAVE") then
            (Ok (mkApiResponse 400 (Message "Invalid post type")), adb)
          else if negb (Str.truthy (Str.trim content)) then
            (Ok (mkApiResponse 400 (Message "Content is required")), adb)
          else
            match (if String.eqb type "HAVE" && negb (falsy image)
                   then match cloudinary_upload (default "" image) with
                        | Ok secure_url => Ok (Some secure_url)
                        | Throw e => Throw e
                        end
                   else Ok None) with
            | Throw _ => (Ok (mkApiResponse 500 (Message "Error uploading image")), adb)
            | Ok imageUrl =>
                match Post_save env adb type (Str.trim content) (default "" decoded_userId)
                        imageUrl with
                | Throw e => (Throw e, adb)
                | Ok (savedPost, adb') =>
                    match User_findById adb' (default "" decoded_userId) with
                    | Throw e => (Throw e, adb')
                    | Ok user =>
                        (Ok (mkApiResponse 201
                               (Created
                                  (format_post
                                     (fun _ => match user with
                                               | Some user => au_username user
                                               | None => "Unknown User"
                                               end)
                                     savedPost))), adb')
                    end
                end
            end
  end.

(** The exported handler: the dispatch on the method, inside [try]. *)
Definition handler `{Externals} `{Cloudinary} (env : Env) (adb : ApiDb) (method : Method)
    (authHeader userId q type : option string) (body_type body_content : string)
    (body_image : option string) : ApiResponse * ApiDb :=
  match method with
  | OPTIONS => (mkApiResponse 200 NoBody, adb)
  | GET =>
      (try_catch (handleGet adb userId q type)
         (fun _ => mkApiResponse 500 (Message "Internal server error")), adb)
  | POST =>
      let '(outcome, adb') := handlePost env adb authHeader body_type body_content body_image in
      (try_catch outcome (fun _ => mkApiResponse 500 (Message "Internal server error")), adb')
  | OtherMethod => (mkApiResponse 405 (Message "Method not allowed"), adb)
  end.

(** The two variants looking at the same data: the same posts, and
    users with the same ids whose [username] here is the [name] there. *)
Definition same_data (adb : ApiDb) (db : Db) : Prop :=
  api_posts adb = posts db
  /\ api_posts_fault adb = posts_fault db
  /\ api_users_fault adb = users_fault db
  /\ map (fun u => (au_id u, au_username u)) (api_users adb)
     = map (fun u => (u_id u, u_name u)) (users db).

End ApiPosts.

(** ** More of the concrete instance: registration, the browser, the
       image host, a token signed with the default secret *)

Module DemoMore.
Import Demo.

Definition bcrypt : Bcrypt := {| bcrypt_hash := fun password salt => "hash:" ++ password |}.

Definition default_claims : Claims :=
  mkClaims carl_id "c@x.com" (Some "carl") issued_at (issued_at + SEVEN_DAYS).
Definition default_token : string :=
  toy_serialize default_claims (toy_hmac "your-default-secret" default_claims).

Definition externals : Externals := {|
  hmac := toy_hmac;
  jws_serialize := toy_serialize;
  jws_parse := fun token =>
    if String.eqb token default_token
    then Some (default_claims, toy_hmac "your-default-secret" default_claims)
    else toy_parse token;
  bcrypt_compare := fun candidate hash => String.eqb hash ("hash:" ++ candidate);
  isEmail := Str.includes "@";
  normalizeEmail := Str.toLowerCase;
  toISOString := show
|}.

Definition issue_env : Env := mkEnv (Some secret) (issued_at * 1000) "".
Definition no_secret_env : Env := mkEnv None ((issued_at + 3600) * 1000) "64f1a2b3c4d5e6f708090aff".

Definition ann_view : UserView := mkUserView ann_id "Ann" "a@x.com".

Definition show_user (u : UserView) : string :=
  uv_id u ++ "," ++ uv_name u ++ "," ++ uv_email u.

Definition browser : Browser := {|
  Json := UserView;
  JSON_parse := fun text => if String.eqb text (show_user ann_view) then Some ann_view else None;
  json_truthy := fun _ => true;
  json_of_user := fun u => u;
  JSON_stringify_user := show_user;
  payload_exp := fun segment =>
    if String.eqb segment (show (issued_at + SEVEN_DAYS)) then Some (issued_at + SEVEN_DAYS)
    else None
|}.

Definition image_host_down : ApiPosts.Cloudinary :=
  {| ApiPosts.cloudinary_upload := fun _ => Throw (Error "upload failed") |}.

Definition signed_in_storage : gmap string string :=
  setUser (show_user ann_view) (setToken ann_token ∅).

Definition carl_identity : Identity := mkIdentity carl_id "c@x.com".

Definition api_db : ApiPosts.ApiDb :=
  ApiPosts.mkApiDb
    (map (fun u => ApiPosts.mkApiUser (u_id u) (u_name u) (u_email u) (u_password u))
       (users db))
    (posts db) None None.

Definition api_db_without_users : ApiPosts.ApiDb :=
  ApiPosts.mkApiDb (ApiPosts.api_users api_db) (posts db) (Some "MongoNetworkError") None.

Definition db_without_users : Db := mkDb [ann; bob] (posts db) (Some "MongoNetworkError") None.

Definition zed : User := mkUser "64f1a2b3c4d5e6f708090aff" "Zed" "zed@x.com" "hash:secret9".

Definition stored_session : Session (H := browser) := mkSession signed_in_storage None true.

End DemoMore.

(** * Properties *)

(** ** Strings *)

Lemma of_chars_chars s : Str.of_chars (Str.chars s) = s.
Proof. induction s as [|c s IH]; simpl; [done | by rewrite IH]. Qed.

Lemma chars_of_chars l : Str.chars (Str.of_chars l) = l.
Proof. induction l as [|c l IH]; simpl; [done | by rewrite IH]. Qed.

Lemma chars_app s t : Str.chars (s ++ t) = (Str.chars s ++ Str.chars t)%list.
Proof. induction s as [|c s IH]; simpl; [done | by rewrite IH]. Qed.

Lemma truthy_chars s : Str.truthy s = true <-> Str.chars s <> [].
Proof. destruct s; simpl; split; congruence. Qed.

Lemma split_chars_nonempty sep l : exists w ws, Str.split_chars sep l = w :: ws.
Proof.
  induction l as [|c l (w & ws & IH)]; simpl; [by eauto |].
  destruct (Ascii.eqb c sep); [by eauto |]. rewrite IH. by eauto.
Qed.

Lemma split_chars_word sep w rest :
  forallb (fun c => negb (Ascii.eqb c sep)) w = true ->
  Str.split_chars sep (w ++ sep :: rest) = w :: Str.split_chars sep rest.
Proof.
  induction w as [|c w IH]; simpl; intros Hw.
  - by rewrite Ascii.eqb_refl.
  - apply andb_prop in Hw as [Hc Hw]. apply negb_true_iff in Hc.
    rewrite Hc, (IH Hw). done.
Qed.

Lemma split_word_rest sep w rest :
  free_of sep w = true ->
  Str.split sep (w ++ String sep rest) = w :: Str.split sep rest.
Proof.
  intros Hw. unfold Str.split. rewrite chars_app. simpl.
  rewrite (split_chars_word _ _ _ Hw). simpl. by rewrite of_chars_chars.
Qed.

Lemma split_chars_free sep w :
  forallb (fun c => negb (Ascii.eqb c sep)) w = true -> Str.split_chars sep w = [w].
Proof.
  induction w as [|c w IH]; simpl; intros Hw; [done |].
  apply andb_prop in Hw as [Hc Hw]. apply negb_true_iff in Hc.
  by rewrite Hc, (IH Hw).
Qed.

Lemma split_free sep w : free_of sep w = true -> Str.split sep w = [w].
Proof.
  intros Hw. unfold Str.split. rewrite (split_chars_free _ _ Hw). simpl.
  by rewrite of_chars_chars.
Qed.

(** The token the middleware extracts does not depend on the scheme word. *)
Lemma header_token_scheme scheme rest :
  Str.truthy scheme = true -> free_of " " scheme = true ->
  header_token (Some (scheme ++ String " " rest)) = head (Str.split " " rest).
Proof.
  intros Ht Hw. unfold header_token.
  assert (Str.truthy (scheme ++ String " " rest) = true) as ->
    by (destruct scheme; simpl in *; congruence).
  rewrite (split_word_rest _ _ _ Hw). simpl. by destruct (Str.split " " rest).
Qed.

Lemma header_token_bearer token :
  free_of " " token = true -> header_token (Some ("Bearer " ++ token)) = Some token.
Proof.
  intros Hw. change ("Bearer " ++ token) with ("Bearer" ++ String " " token).
  rewrite header_token_scheme by done. by rewrite (split_free _ _ Hw).
Qed.

(** ** Identity middleware *)

Section Middleware.
Context `{Externals}.

(** What the middleware does once a token has been extracted and the
    secret is configured. *)
Lemma authenticateToken_with_token env db authHeader token secret :
  header_token authHeader = Some token -> Str.truthy token = true ->
  JWT_SECRET env = Some secret -> Str.truthy secret = true ->
  authenticateToken env db authHeader =
    try_catch
      (let_await decoded := jwt_verify env token secret in
       let_await user := User_findById db (c_userId decoded) in
       match user with
       | None => Ok (Respond (fail 401 "User not found"))
       | Some user => Ok (Next (mkIdentity (u_id user) (u_email user)))
       end)
      authenticateToken_catch.
Proof.
  intros Hh Ht Hs Hts. unfold authenticateToken.
  rewrite Hh, Ht, Hs. simpl. by rewrite Hts.
Qed.

(** A request without [Authorization] header is answered 401 at once. *)
Lemma authenticateToken_absent_header env db :
  authenticateToken env db None = Respond (fail 401 "Access token required").
Proof. reflexivity. Qed.

(** So is a header made of a single word, whatever the word. *)
Lemma authenticateToken_single_word env db word :
  free_of " " word = true ->
  authenticateToken env db (Some word) = Respond (fail 401 "Access token required").
Proof.
  intros Hw. unfold authenticateToken, header_token.
  destruct (Str.truthy word) eqn:Ht; simpl.
  - by rewrite (split_free _ _ Hw).
  - by rewrite Ht.
Qed.

(** C2 (divergence).  [authenticateToken] never looks at the scheme: a
    header [<scheme> <token>] with any scheme word is processed exactly
    like [Bearer <token>], verification and user lookup included. *)
Theorem authenticateToken_ignores_scheme env db scheme rest :
  Str.truthy scheme = true -> free_of " " scheme = true ->
  authenticateToken env db (Some (scheme ++ String " " rest))
  = authenticateToken env db (Some ("Bearer " ++ rest)).
Proof.
  intros Ht Hw. unfold authenticateToken.
  rewrite (header_token_scheme _ _ Ht Hw).
  change ("Bearer " ++ rest) with ("Bearer" ++ String " " rest).
  by rewrite header_token_scheme.
Qed.

(** The serverless [verifyToken] does check the scheme. *)
Lemma api_verifyToken_requires_bearer env h :
  Str.startsWith "Bearer " h = false ->
  ApiUtilsAuth.verifyToken env (Some h) = (false, None).
Proof. intros Hp. unfold ApiUtilsAuth.verifyToken. by rewrite Hp. Qed.

Lemma api_verifyToken_absent_header env :
  ApiUtilsAuth.verifyToken env None = (false, None).
Proof. reflexivity. Qed.

(** The library tells the failure kinds apart ... *)
Lemma jwt_verify_expired env token secret claims :
  Str.truthy token = true ->
  jws_parse token = Some (claims, hmac secret claims) ->
  c_exp claims <= seconds (Date_now env) ->
  jwt_verify env token secret = Throw (TokenExpiredError "jwt expired" (c_exp claims * 1000)).
Proof.
  intros Ht Hp He. unfold jwt_verify. rewrite Ht, Hp, String.eqb_refl. simpl.
  by rewrite (proj2 (Z.leb_le _ _) He).
Qed.

Lemma jwt_verify_invalid_signature env token secret claims signature :
  Str.truthy token = true ->
  jws_parse token = Some (claims, signature) ->
  signature <> hmac secret claims ->
  jwt_verify env token secret = Throw (JsonWebTokenError "invalid signature").
Proof.
  intros Ht Hp Hs. unfold jwt_verify. rewrite Ht, Hp. simpl.
  by rewrite (proj2 (String.eqb_neq _ _) Hs).
Qed.

Lemma jwt_verify_malformed env token secret :
  Str.truthy token = true ->
  jws_parse token = None ->
  jwt_verify env token secret = Throw (JsonWebTokenError "jwt malformed").
Proof. intros Ht Hp. unfold jwt_verify. by rewrite Ht, Hp. Qed.

Lemma jwt_verify_valid env token secret claims :
  Str.truthy token = true ->
  jws_parse token = Some (claims, hmac secret claims) ->
  seconds (Date_now env) < c_exp claims ->
  jwt_verify env token secret = Ok claims.
Proof.
  intros Ht Hp He. unfold jwt_verify. rewrite Ht, Hp, String.eqb_refl. simpl.
  by rewrite (proj2 (Z.leb_gt _ _) He).
Qed.

(** ... but the [catch] block tests [JsonWebTokenError] first, and an
    expired-token error is an instance of it. *)
Lemma authenticateToken_catch_expired m e :
  authenticateToken_catch (TokenExpiredError m e) = Respond (fail 401 "Invalid token").
Proof. reflexivity. Qed.

Lemma authenticateToken_catch_never_token_expired error :
  authenticateToken_catch error <> Respond (fail 401 "Token expired").
Proof. by destruct error. Qed.

(** C3 (divergence).  A request with an expired, correctly signed token
    and a request with a token of corrupted signature receive the same
    answer, 401 [Invalid token]. *)
Theorem expired_and_forged_same_response env db secret h1 t1 c1 h2 t2 c2 s2 :
  JWT_SECRET env = Some secret -> Str.truthy secret = true ->
  header_token h1 = Some t1 -> Str.truthy t1 = true ->
  header_token h2 = Some t2 -> Str.truthy t2 = true ->
  jws_parse t1 = Some (c1, hmac secret c1) -> c_exp c1 <= seconds (Date_now env) ->
  jws_parse t2 = Some (c2, s2) -> s2 <> hmac secret c2 ->
  authenticateToken env db h1 = Respond (fail 401 "Invalid token")
  /\ authenticateToken env db h2 = authenticateToken env db h1.
Proof.
  intros Hs Hts Hh1 Ht1 Hh2 Ht2 Hp1 He Hp2 Hs2.
  rewrite (authenticateToken_with_token _ _ _ _ _ Hh1 Ht1 Hs Hts).
  rewrite (authenticateToken_with_token _ _ _ _ _ Hh2 Ht2 Hs Hts).
  rewrite (jwt_verify_expired _ _ _ _ Ht1 Hp1 He).
  rewrite (jwt_verify_invalid_signature _ _ _ _ _ Ht2 Hp2 Hs2).
  done.
Qed.

(** The serverless helpers report every failure as the same [false]. *)
Lemma api_verifyToken_failure_uniform env h e :
  jwt_verify env (default "" (Str.split " " h !! 1%nat)) (api_secret env) = Throw e ->
  ApiUtilsAuth.verifyToken env (Some h) = (false, None).
Proof.
  intros Hv. unfold ApiUtilsAuth.verifyToken.
  destruct (Str.startsWith "Bearer " h); simpl; [| done]. by rewrite Hv.
Qed.

(** X4.  The Express middleware looks the subject up again: a verified
    token whose subject is no longer in the store is answered 401 and
    nothing is attached to the request. *)
Lemma authenticateToken_unknown_subject env db secret h token claims :
  JWT_SECRET env = Some secret -> Str.truthy secret = true ->
  header_token h = Some token -> Str.truthy token = true ->
  jwt_verify env token secret = Ok claims ->
  User_findById db (c_userId claims) = Ok None ->
  authenticateToken env db h = Respond (fail 401 "User not found").
Proof.
  intros Hs Hts Hh Ht Hv Hu.
  rewrite (authenticateToken_with_token _ _ _ _ _ Hh Ht Hs Hts).
  by rewrite Hv; simpl; rewrite Hu.
Qed.

(** C4 (divergence).  [authenticateRequest] of the serverless variant
    attaches the identity of every verified token and returns [true],
    also when the store has no user with the subject id: it never
    consults the store. *)
Theorem authenticateRequest_unknown_subject env db h token claims :
  Str.startsWith "Bearer " h = true ->
  Str.split " " h !! 1%nat = Some token ->
  jwt_verify env token (api_secret env) = Ok claims ->
  User_findById db (c_userId claims) = Ok None ->
  ApiAuthRequest.authenticateRequest env (Some h)
  = (true, Some (mkApiIdentity (c_userId claims) (c_email claims) (c_username claims))).
Proof.
  intros Hp Ht Hv _. unfold ApiAuthRequest.authenticateRequest, ApiAuthRequest.verifyToken.
  rewrite Hp, Ht. simpl. by rewrite Hv.
Qed.

End Middleware.

(** ** Token service *)

Section TokenService.
Context `{Externals}.

Lemma generateToken_configured env secret userId email :
  JWT_SECRET env = Some secret -> Str.truthy secret = true ->
  generateToken env userId email
  = Ok (jws_serialize (issued_claims env userId email)
          (hmac secret (issued_claims env userId email))).
Proof.
  intros Hs Ht. unfold generateToken, jwt_sign, issued_claims.
  rewrite Hs. simpl. by rewrite Ht.
Qed.

(** C9.  For a user [u], a token issued for [u] and verified with the
    same secret before its expiry (seven days after it was issued) is
    accepted, and the claims returned carry [u]'s id as subject.  The
    hypothesis on [jws_parse] says that the library reads back the
    token it has just written. *)
Theorem verify_generateToken_roundtrip (u : User) issue verify secret :
  JWT_SECRET issue = Some secret -> Str.truthy secret = true ->
  (let claims := issued_claims issue (u_id u) (u_email u) in
   let token := jws_serialize claims (hmac secret claims) in
   Str.truthy token = true /\ jws_parse token = Some (claims, hmac secret claims)) ->
  seconds (Date_now verify) < seconds (Date_now issue) + SEVEN_DAYS ->
  exists token decoded,
    generateToken issue (u_id u) (u_email u) = Ok token
    /\ jwt_verify verify token secret = Ok decoded
    /\ c_userId decoded = u_id u.
Proof.
  intros Hs Ht [Htoken Hcodec] Hfresh.
  eexists _, (issued_claims issue (u_id u) (u_email u)).
  split; [exact (generateToken_configured _ _ _ _ Hs Ht) |].
  split; [| done].
  by apply jwt_verify_valid.
Qed.

(** Through the middleware: the bearer of a fresh token of a user who is
    still in the store is given that user's identity. *)
Lemma authenticateToken_fresh_token (u : User) issue verify db secret token :
  JWT_SECRET issue = Some secret -> JWT_SECRET verify = Some secret ->
  Str.truthy secret = true ->
  generateToken issue (u_id u) (u_email u) = Ok token ->
  free_of " " token = true -> Str.truthy token = true ->
  jws_parse token
  = Some (issued_claims issue (u_id u) (u_email u),
          hmac secret (issued_claims issue (u_id u) (u_email u))) ->
  seconds (Date_now verify) < seconds (Date_now issue) + SEVEN_DAYS ->
  User_findById db (u_id u) = Ok (Some u) ->
  authenticateToken verify db (Some ("Bearer " ++ token))
  = Next (mkIdentity (u_id u) (u_email u)).
Proof.
  intros Hs Hs' Ht Hg Hw Htt Hp Hfresh Hu.
  rewrite (authenticateToken_with_token _ _ _ _ _ (header_token_bearer _ Hw) Htt Hs' Ht).
  rewrite (jwt_verify_valid _ _ _ _ Htt Hp Hfresh). simpl. by rewrite Hu.
Qed.

(** A token is rejected from its expiry on: expiry is absolute. *)
Lemma verify_generateToken_expired issue verify secret userId email :
  let claims := issued_claims issue userId email in
  let token := jws_serialize claims (hmac secret claims) in
  Str.truthy token = true ->
  jws_parse token = Some (claims, hmac secret claims) ->
  seconds (Date_now issue) + SEVEN_DAYS <= seconds (Date_now verify) ->
  jwt_verify verify (jwt_sign issue userId email None secret) secret
  = Throw (TokenExpiredError "jwt expired" (c_exp claims * 1000)).
Proof.
  intros claims token Ht Hp He. by apply jwt_verify_expired.
Qed.

End TokenService.

(** ** Login *)

Section Login.
Context `{Externals}.

Lemma login_validated env db email password :
  validateLogin email password = [] ->
  login env db email password =
    try_catch
      (let_await user := User_findOne_email db (Str.toLowerCase (normalizeEmail email)) in
       match user with
       | None => Ok (fail 401 "Invalid email or password")
       | Some user =>
           let_await isPasswordValid := comparePassword user password in
           if negb isPasswordValid then
             Ok (fail 401 "Invalid email or password")
           else
             let_await token := generateToken env (u_id user) (u_email user) in
             Ok (mkResponse 200
                   (AuthSuccess "Login successful"
                      (mkUserView (u_id user) (u_name user) (u_email user)) token))
       end)
      (fun _ => fail 500 "Login failed").
Proof. intros Hv. unfold login. by rewrite Hv. Qed.

Lemma login_refused_response env db email (password : string) :
  validateLogin email password = [] -> users_fault db = None ->
  login_refused db email password ->
  login env db email password = fail 401 "Invalid email or password".
Proof.
  intros Hv Hup Hr. rewrite (login_validated _ _ _ _ Hv).
  unfold User_findOne_email. rewrite Hup. simpl.
  destruct Hr as [Hnone | user Hsome Hpw].
  - by rewrite Hnone.
  - rewrite Hsome. simpl. by rewrite Hpw.
Qed.

(** While the password of the request is a string, an attempt refused
    because the email is unknown and an attempt refused because the
    password does not match receive the same response: status 401 and
    the same message. *)
Lemma login_failure_uniform_on_strings env1 db1 email1 (password1 : string)
    env2 db2 email2 (password2 : string) user :
  validateLogin email1 password1 = [] -> users_fault db1 = None ->
  validateLogin email2 password2 = [] -> users_fault db2 = None ->
  List.find (fun u => String.eqb (u_email u) (Str.toLowerCase (normalizeEmail email1)))
    (users db1) = None ->
  List.find (fun u => String.eqb (u_email u) (Str.toLowerCase (normalizeEmail email2)))
    (users db2) = Some user ->
  bcrypt_compare password2 (u_password user) = false ->
  login env1 db1 email1 password1 = login env2 db2 email2 password2
  /\ login env1 db1 email1 password1 = fail 401 "Invalid email or password".
Proof.
  intros Hv1 Hup1 Hv2 Hup2 Hnone Hsome Hpw.
  rewrite (login_refused_response env1 db1 email1 password1 Hv1 Hup1 (no_such_email _ _ _ Hnone)).
  rewrite (login_refused_response env2 db2 email2 password2 Hv2 Hup2
             (wrong_password _ _ _ user Hsome Hpw)).
  done.
Qed.

(** The two answers to a password that is not a string. *)
Lemma login_not_text_unknown_email env db email type_of shown :
  validateLogin email (NotText type_of shown) = [] -> users_fault db = None ->
  List.find (fun u => String.eqb (u_email u) (Str.toLowerCase (normalizeEmail email)))
    (users db) = None ->
  login env db email (NotText type_of shown) = fail 401 "Invalid email or password".
Proof.
  intros Hv Hup Hnone. rewrite (login_validated _ _ _ _ Hv).
  unfold User_findOne_email. rewrite Hup. simpl. by rewrite Hnone.
Qed.

Lemma login_not_text_known_email env db email type_of shown user :
  validateLogin email (NotText type_of shown) = [] -> users_fault db = None ->
  List.find (fun u => String.eqb (u_email u) (Str.toLowerCase (normalizeEmail email)))
    (users db) = Some user ->
  login env db email (NotText type_of shown) = fail 500 "Login failed".
Proof.
  intros Hv Hup Hsome. rewrite (login_validated _ _ _ _ Hv).
  unfold User_findOne_email. rewrite Hup. simpl. by rewrite Hsome.
Qed.

(** C5 (divergence).  A password that is not a string (a JSON number,
    say) passes the validation of the request and tells the two causes
    apart: the attempt with an email that does not exist is answered 401
    [Invalid email or password], the attempt with an email that exists is
    answered 500 [Login failed], because the comparison of the password
    throws and the [catch] block answers.  The two responses differ in
    status and in message. *)
Theorem login_failure_tells_causes_apart env db email1 email2 type_of shown user :
  validateLogin email1 (NotText type_of shown) = [] ->
  validateLogin email2 (NotText type_of shown) = [] ->
  users_fault db = None ->
  List.find (fun u => String.eqb (u_email u) (Str.toLowerCase (normalizeEmail email1)))
    (users db) = None ->
  List.find (fun u => String.eqb (u_email u) (Str.toLowerCase (normalizeEmail email2)))
    (users db) = Some user ->
  login env db email1 (NotText type_of shown) = fail 401 "Invalid email or password"
  /\ login env db email2 (NotText type_of shown) = fail 500 "Login failed"
  /\ status (login env db email1 (NotText type_of shown))
     <> status (login env db email2 (NotText type_of shown)).
Proof.
  intros Hv1 Hv2 Hup Hnone Hsome.
  rewrite (login_not_text_unknown_email env db email1 type_of shown Hv1 Hup Hnone).
  rewrite (login_not_text_known_email env db email2 type_of shown user Hv2 Hup Hsome).
  done.
Qed.

(** X6.  No other response of the login handler has status 401:
    whatever the request and the store, a 401 of the login handler is the
    response with the message [Invalid email or password]. *)
Lemma login_401_is_uniform env db email password :
  status (login env db email password) = 401 ->
  login env db email password = fail 401 "Invalid email or password".
Proof.
  unfold login. destruct (bool_decide _); simpl; [| done].
  destruct (User_findOne_email _ _) as [[user|]|]; simpl; try done.
  destruct (comparePassword _ _) as [[|]|]; simpl; try done.
  destruct (generateToken _ _ _); simpl; done.
Qed.

End Login.

(** ** Free-text search: the escaped pattern is a literal *)

Section EscapedPatterns.
Import Regex.

Local Ltac by_cases_on c :=
  destruct c as [[] [] [] [] [] [] [] []]; try discriminate; reflexivity.

Lemma parse_atom_plain fuel c rest :
  in_escape_class c = false ->
  parse_atom (S fuel) (c :: rest) = Parsed (Lit c) rest.
Proof. by_cases_on c. Qed.

Lemma parse_atom_escaped fuel c rest :
  in_escape_class c = true ->
  parse_atom (S fuel) ("\"%char :: c :: rest) = Parsed (Lit c) rest.
Proof. by_cases_on c. Qed.

Lemma parse_seq_plain fuel c rest :
  in_escape_class c = false ->
  parse_seq (S fuel) (c :: rest) =
    match parse_atom fuel (c :: rest) with
    | Parsed r1 rest1 =>
        match parse_quantifier r1 rest1 with
        | Parsed r1' rest' =>
            match parse_seq fuel rest' with
            | Parsed r2 rest'' => Parsed (Seq r1' r2) rest''
            | failure => failure
            end
        | failure => failure
        end
    | failure => failure
    end.
Proof. by_cases_on c. Qed.

Lemma quantifier_in_escape_class c : is_quantifier c = true -> in_escape_class c = true.
Proof. by_cases_on c. Qed.

(** No quantifier follows an atom of an escaped text. *)
Lemma parse_quantifier_escaped r l :
  parse_quantifier r (escape_chars l) = Parsed r (escape_chars l).
Proof.
  destruct l as [|c l]; simpl; [done |].
  destruct (in_escape_class c) eqn:Hc; simpl; [done |].
  destruct (is_quantifier c) eqn:Hq; [| done].
  apply quantifier_in_escape_class in Hq. congruence.
Qed.

Lemma parse_seq_escaped l : forall fuel,
  (length l + 2 <= fuel)%nat ->
  parse_seq fuel (escape_chars l) = Parsed (literal l) [].
Proof.
  induction l as [|c l IH]; intros fuel Hfuel; simpl in Hfuel.
  - destruct fuel as [|fuel]; [lia | done].
  - destruct fuel as [|[|fuel]]; [lia | lia |].
    specialize (IH (S fuel) ltac:(lia)). simpl escape_chars.
    destruct (in_escape_class c) eqn:Hc.
    + change (parse_seq (S (S fuel)) ("\"%char :: c :: escape_chars l))
        with (match parse_atom (S fuel) ("\"%char :: c :: escape_chars l) with
              | Parsed r1 rest1 =>
                  match parse_quantifier r1 rest1 with
                  | Parsed r1' rest' =>
                      match parse_seq (S fuel) rest' with
                      | Parsed r2 rest'' => Parsed (Seq r1' r2) rest''
                      | failure => failure
                      end
                  | failure => failure
                  end
              | failure => failure
              end).
      rewrite (parse_atom_escaped _ _ _ Hc), parse_quantifier_escaped, IH. done.
    + rewrite (parse_seq_plain _ _ _ Hc), (parse_atom_plain _ _ _ Hc).
      rewrite parse_quantifier_escaped, IH. done.
Qed.

Lemma length_escape_chars l : (length l <= length (escape_chars l))%nat.
Proof.
  induction l as [|c l IH]; simpl; [lia |].
  destruct (in_escape_class c); simpl; lia.
Qed.

(** The store accepts every escaped text, and compiles it to the regular
    expression that spells the text. *)
Lemma compile_escaped l : compile (escape_chars l) = Compiled (literal l).
Proof.
  unfold compile.
  pose proof (length_escape_chars l) as Hlen.
  replace (3 * length (escape_chars l) + 3)%nat
    with (S (3 * length (escape_chars l) + 2))%nat by lia.
  simpl parse_alt. rewrite parse_seq_escaped by lia. done.
Qed.

Lemma rmatch_literal fold l : forall start s,
  rmatch fold (literal l) start s (fun _ _ => true) = true
  <-> exists mid post, s = (mid ++ post)%list /\ map fold mid = map fold l.
Proof.
  induction l as [|c l IH]; intros start s; simpl.
  - split; [intros _; by exists [], s | done].
  - destruct s as [|x s].
    + split; [done |]. intros (mid & post & Hs & Hm).
      destruct mid; simpl in *; congruence.
    + rewrite andb_true_iff, Ascii.eqb_eq, IH. split.
      * intros (Hx & mid & post & -> & Hm). exists (x :: mid), post. simpl.
        split; [done |]. by rewrite Hx, Hm.
      * intros (mid & post & Hs & Hm). destruct mid as [|y mid]; simpl in *; [done |].
        injection Hs as -> ->. injection Hm as Hy Hm. eauto.
Qed.

Lemma search_from_literal fold l : forall s start,
  search_from fold (literal l) start s = true <-> occurs_in fold l s.
Proof.
  induction s as [|x s IH]; intros start; simpl; rewrite orb_true_iff, rmatch_literal.
  - split.
    + intros [(mid & post & Hs & Hm) | ?]; [| done]. by exists [], mid, post.
    + intros (pre & mid & post & Hs & Hm). left.
      destruct pre; simpl in *; [eauto | done].
  - rewrite IH. split.
    + intros [(mid & post & Hs & Hm) | (pre & mid & post & Hs & Hm)].
      * by exists [], mid, post.
      * exists (x :: pre), mid, post. simpl. by rewrite Hs.
    + intros (pre & mid & post & Hs & Hm). destruct pre as [|y pre]; simpl in *.
      * left. eauto.
      * right. injection Hs as -> ->. by exists pre, mid, post.
Qed.

Lemma occurs_in_empty fold s : occurs_in fold [] s.
Proof. by exists [], [], s. Qed.

Lemma option_fold_i : option_fold "i" = Str.lower_char.
Proof. reflexivity. Qed.

(** The content filter of a query built by the feed handler, for a free
    text the store admits.  *)
Lemma content_predicate_build_query userId q type :
  searchable q = true ->
  exists matches,
    content_predicate (build_query userId q type) = Ok matches
    /\ forall value, matches value = true <-> contains_ci (Str.trim (default "" q)) value.
Proof.
  unfold searchable, content_predicate, build_query, contains_ci. simpl.
  destruct q as [q|]; simpl.
  - intros Hadm. destruct (Str.truthy q && Str.truthy (Str.trim q)) eqn:Hq.
    + apply andb_prop in Hq as [_ Hq]. simpl. rewrite Hadm. simpl. unfold escapeRegex.
      rewrite chars_of_chars, compile_escaped. eexists. split; [done |].
      intros value. rewrite option_fold_i. apply search_from_literal.
    + eexists. split; [done |]. intros value. split; [intros _ | done].
      assert (Str.chars (Str.trim q) = []) as ->; [| apply occurs_in_empty].
      apply andb_false_iff in Hq as [Hq | Hq].
      * by destruct q.
      * by destruct (Str.trim q).
  - intros _. eexists. split; [done |]. intros value. split; [intros _ | done].
    apply occurs_in_empty.
Qed.

(** A free text the store does not admit fails the query. *)
Lemma content_predicate_refused userId q type :
  searchable q = false ->
  content_predicate (build_query userId q type) = Throw (StoreError "MongoServerError").
Proof.
  unfold searchable, content_predicate, build_query. simpl.
  destruct q as [q|]; simpl; [| done].
  intros Hadm. destruct (Str.truthy q && Str.truthy (Str.trim q)) eqn:Hq; simpl.
  - by rewrite Hadm.
  - apply andb_false_iff in Hq as [Hq | Hq].
    + destruct q; [done | done].
    + destruct (Str.trim q); [done | done].
Qed.

Lemma elem_of_trim_start c l :
  c ∈ l -> Str.is_space c = false -> c ∈ Str.trim_start l.
Proof.
  induction l as [|x l IH]; simpl; [done |]. intros Hin Hc.
  destruct (Str.is_space x) eqn:Hx; [| done].
  apply elem_of_cons in Hin as [-> | Hin]; [congruence | by apply IH].
Qed.

Lemma elem_of_trim_chars c l :
  c ∈ l -> Str.is_space c = false -> c ∈ Str.trim_chars l.
Proof.
  intros Hin Hc. unfold Str.trim_chars.
  apply list_elem_of_In. apply -> in_rev. apply list_elem_of_In.
  apply elem_of_trim_start; [| done].
  apply list_elem_of_In. apply -> in_rev. apply list_elem_of_In.
  by apply elem_of_trim_start.
Qed.

Lemma elem_of_escape_chars c l : c ∈ l -> c ∈ escape_chars l.
Proof.
  induction l as [|x l IH]; simpl; [done |]. intros Hin.
  apply elem_of_cons in Hin as [-> | Hin].
  - destruct (in_escape_class x); set_solver.
  - destruct (in_escape_class x); set_solver.
Qed.

(** A free text that holds a NUL is not one the store admits. *)
Lemma nul_not_searchable (q : string) :
  Ascii.zero ∈ Str.chars q -> searchable (Some q) = false.
Proof.
  intros Hin. unfold searchable, admitted. simpl. apply andb_false_iff. left.
  apply not_true_iff_false. intros Hall. rewrite forallb_forall in Hall.
  specialize (Hall Ascii.zero). unfold escapeRegex, Str.trim in Hall.
  rewrite !chars_of_chars in Hall. simpl in Hall.
  assert (false = true) as Habs; [| done]. apply Hall. apply list_elem_of_In.
  by apply elem_of_escape_chars, elem_of_trim_chars.
Qed.

(** For every query string [q] the store admits, whatever characters it
    holds, the filter the feed handler builds from it is accepted by the
    store and selects a content if and only if the content contains the
    trimmed text of [q] as a literal, case-insensitive substring. *)
Lemma free_text_query_is_literal userId type (q : string) :
  searchable (Some q) = true ->
  exists matches,
    content_predicate (build_query userId (Some q) type) = Ok matches
    /\ forall value, matches value = true <-> contains_ci (Str.trim q) value.
Proof. exact (content_predicate_build_query userId (Some q) type). Qed.

(** Without the escaping the same texts would be read as patterns. *)
Example unescaped_pattern_matches_more :
  regex_test "a.*b" "i" "axxb" = Ok true
  /\ regex_test (escapeRegex "a.*b") "i" "axxb" = Ok false
  /\ regex_test (escapeRegex "a.*b") "i" "see A.*B here" = Ok true.
Proof. repeat split; reflexivity. Qed.

Example unescaped_pattern_rejected :
  regex_test "(x" "i" "f(x)" = Throw (StoreError "MongoServerError")
  /\ regex_test (escapeRegex "(x") "i" "f(x)" = Ok true.
Proof. repeat split; reflexivity. Qed.

End EscapedPatterns.

(** ** Post repository: newest first *)

#[local] Instance newest_first_total : Total newest_first.
Proof. intros a b. unfold newest_first. lia. Qed.

#[local] Instance newest_first_trans : Transitive newest_first.
Proof. intros a b c. unfold newest_first. lia. Qed.

Lemma sort_createdAt_desc_sorted found : StronglySorted newest_first (sort_createdAt_desc found).
Proof. apply StronglySorted_merge_sort; apply _. Qed.

Lemma sort_createdAt_desc_perm found : Permutation (sort_createdAt_desc found) found.
Proof. apply merge_sort_Permutation. Qed.

(** Whatever the query, a result of [find(...).sort(...)] is the selected
    posts, newest first. *)
Lemma Post_find_sorted_spec db query found :
  Post_find_sorted db query = Ok found ->
  StronglySorted newest_first found
  /\ exists matches,
       content_predicate query = Ok matches
       /\ Permutation found (List.filter (selects query matches) (posts db)).
Proof.
  unfold Post_find_sorted, Post_find.
  destruct (content_predicate query) as [matches|]; simpl; [| done].
  destruct (available (posts_fault db)); simpl; [| done].
  intros [= <-]. split; [apply sort_createdAt_desc_sorted |].
  exists matches. split; [done | apply sort_createdAt_desc_perm].
Qed.

Lemma Post_find_sorted_available db userId q type :
  posts_fault db = None -> searchable q = true ->
  exists matches,
    content_predicate (build_query userId q type) = Ok matches
    /\ Post_find_sorted db (build_query userId q type)
       = Ok (sort_createdAt_desc
               (List.filter (selects (build_query userId q type) matches) (posts db))).
Proof.
  intros Hup Hq.
  destruct (content_predicate_build_query userId q type Hq) as (matches & Hm & _).
  exists matches. split; [done |].
  unfold Post_find_sorted, Post_find. rewrite Hm, Hup. done.
Qed.

Lemma Post_find_sorted_refused db userId q type :
  searchable q = false ->
  Post_find_sorted db (build_query userId q type) = Throw (StoreError "MongoServerError").
Proof.
  intros Hq. unfold Post_find_sorted, Post_find.
  by rewrite (content_predicate_refused userId q type Hq).
Qed.

Lemma field_equals_userId userId post :
  field_equals (if falsy userId then None else userId) (p_userId post) = true
  <-> forall u, userId = Some u -> Str.truthy u = true -> p_userId post = u.
Proof.
  destruct userId as [u|]; simpl; [| by split].
  destruct (Str.truthy u) eqn:Ht; simpl.
  - rewrite String.eqb_eq. split; [by intros -> ? [= <-] | by eauto].
  - split; [| done]. intros _ u' [= <-]. congruence.
Qed.

Lemma field_equals_type type post :
  field_equals
    (match type with
     | Some t =>
         if Str.truthy t
            && (String.eqb (Str.toUpperCase t) "NEED" || String.eqb (Str.toUpperCase t) "HAVE")
         then Some (Str.toUpperCase t) else None
     | None => None
     end) (p_type post) = true
  <-> forall t, type = Some t ->
        Str.toUpperCase t = "NEED" \/ Str.toUpperCase t = "HAVE" ->
        p_type post = Str.toUpperCase t.
Proof.
  destruct type as [t|]; simpl; [| by split].
  destruct (Str.truthy t) eqn:Ht; simpl.
  - destruct (String.eqb_spec (Str.toUpperCase t) "NEED") as [Hn | Hn]; simpl.
    + rewrite String.eqb_eq. split; [by intros -> ? [= <-] | by eauto].
    + destruct (String.eqb_spec (Str.toUpperCase t) "HAVE") as [Hh | Hh]; simpl.
      * rewrite String.eqb_eq. split; [by intros -> ? [= <-] | by eauto].
      * split; [| done]. intros _ t' [= <-] [? | ?]; congruence.
  - split; [| done]. intros _ t' [= <-]. destruct t; [| done]. by intros [? | ?].
Qed.

(** The filter built by the handler selects the posts the parameters ask for. *)
Lemma selects_build_query userId q type matches post :
  searchable q = true ->
  content_predicate (build_query userId q type) = Ok matches ->
  selects (build_query userId q type) matches post = true <-> wanted userId q type post.
Proof.
  intros Hq Hm.
  destruct (content_predicate_build_query userId q type Hq) as (matches' & Hm' & Hspec).
  rewrite Hm in Hm'. injection Hm' as <-.
  unfold selects, wanted. rewrite !andb_true_iff, Hspec.
  unfold build_query. simpl. rewrite field_equals_userId, field_equals_type. tauto.
Qed.

(** For every combination of the parameters [userId], [q] and [type]
    (each possibly absent) and every content of the posts collection,
    whenever the store performs the query (the collection can be read and
    the free text is one it admits), the repository query of the feed
    returns a result; the result holds exactly the stored posts the
    parameters ask for (it is a rearrangement of the posts the filter
    selects) and is ordered by creation time, newest first. *)
Lemma Post_find_sorted_newest_first db userId q type :
  posts_fault db = None -> searchable q = true ->
  exists found,
    Post_find_sorted db (build_query userId q type) = Ok found
    /\ StronglySorted newest_first found
    /\ (forall post, post ∈ found <-> post ∈ posts db /\ wanted userId q type post)
    /\ exists matches,
         content_predicate (build_query userId q type) = Ok matches
         /\ Permutation found
              (List.filter (selects (build_query userId q type) matches) (posts db)).
Proof.
  intros Hup Hq.
  destruct (Post_find_sorted_available db userId q type Hup Hq) as (matches & Hm & Hf).
  eexists. split; [exact Hf |]. split; [apply sort_createdAt_desc_sorted |].
  split; [| exists matches; split; [exact Hm | apply sort_createdAt_desc_perm]].
  intros post. rewrite sort_createdAt_desc_perm.
  rewrite list_elem_of_In, filter_In, <- list_elem_of_In.
  by rewrite (selects_build_query _ _ _ _ _ Hq Hm).
Qed.

(** C6 (divergence).  On a readable collection the repository query of
    the feed returns the posts the parameters ask for, newest first, for
    every combination of [userId], [q] and [type] whose free text the
    store admits.  For a free text it does not admit (one that holds a
    NUL) the query returns nothing: it throws. *)
Theorem find_newest_first_unless_refused db userId q type :
  posts_fault db = None ->
  (searchable q = true ->
   exists found,
     Post_find_sorted db (build_query userId q type) = Ok found
     /\ StronglySorted newest_first found
     /\ (forall post, post ∈ found <-> post ∈ posts db /\ wanted userId q type post)
     /\ exists matches,
          content_predicate (build_query userId q type) = Ok matches
          /\ Permutation found
               (List.filter (selects (build_query userId q type) matches) (posts db)))
  /\ ((exists text, q = Some text /\ Ascii.zero ∈ Str.chars text) ->
      Post_find_sorted db (build_query userId q type)
      = Throw (StoreError "MongoServerError")).
Proof.
  intros Hup. split.
  - by apply Post_find_sorted_newest_first.
  - intros (text & -> & Hnul). apply Post_find_sorted_refused. by apply nul_not_searchable.
Qed.

(** In a list ordered newest first, a post never precedes a newer one. *)
Lemma newest_first_lookup found i j a b :
  StronglySorted newest_first found ->
  found !! i = Some a -> found !! j = Some b -> (i < j)%nat ->
  p_createdAt b <= p_createdAt a.
Proof.
  intros Hs. revert i j. induction Hs as [|x l Hs IH Hx]; intros i j Hi Hj Hij.
  - done.
  - destruct j as [|j]; [lia |]. simpl in Hj. destruct i as [|i]; simpl in Hi.
    + injection Hi as ->. apply list_elem_of_lookup_2 in Hj.
      rewrite Forall_forall in Hx. by apply Hx.
    + apply (IH i j); [done | done | lia].
Qed.

(** ** Feed hydration *)

Section Hydration.
Context `{Externals}.

Lemma cast_all_valid ids :
  forallb isValidObjectId ids = true ->
  cast_all ids = Ok (map Str.toLowerCase ids).
Proof.
  induction ids as [|id ids IH]; simpl; [done |].
  intros Hv. apply andb_prop in Hv as [Hid Hv]. unfold castObjectId at 1.
  rewrite Hid. simpl. by rewrite (IH Hv).
Qed.

Lemma uniqueUserIds_valid (found : list Post) :
  forallb isValidObjectId
    (remove_dups (List.filter isValidObjectId (map p_userId found))) = true.
Proof.
  apply forallb_forall. intros id Hid.
  apply list_elem_of_In, elem_of_remove_dups, list_elem_of_In, filter_In in Hid.
  tauto.
Qed.

(** The batch lookup is only given ids that cast: it cannot raise
    [CastError], whatever author ids the posts carry. *)
Lemma batch_lookup_no_cast_error db (found : list Post) :
  User_find_in db (remove_dups (List.filter isValidObjectId (map p_userId found)))
  = match users_fault db with
    | None =>
        Ok (List.filter
              (fun u => existsb (String.eqb (u_id u))
                          (map Str.toLowerCase
                             (remove_dups (List.filter isValidObjectId (map p_userId found)))))
              (users db))
    | Some name => Throw (StoreError name)
    end.
Proof.
  unfold User_find_in. rewrite (cast_all_valid _ (uniqueUserIds_valid found)). simpl.
  by destruct (users_fault db).
Qed.

(** The response of the feed when no [userId] parameter is given. *)
Lemma get_posts_batch db userId q type found :
  falsy userId = true ->
  Post_find_sorted db (build_query userId q type) = Ok found ->
  get_posts db userId q type =
    mkResponse 200
      (PostList
         (map (format_post
                 (userName_of
                    (build_userMap
                       (try_catch
                          (User_find_in db
                             (remove_dups (List.filter isValidObjectId (map p_userId found))))
                          (fun _ => [])))))
              found)).
Proof. intros Hu Hf. unfold get_posts. rewrite Hf. simpl. by rewrite Hu. Qed.

Lemma build_userMap_snoc l u :
  build_userMap (l ++ [u]) = <[u_id u := u_name u]> (build_userMap l).
Proof. unfold build_userMap. by rewrite foldl_app. Qed.

Lemma build_userMap_lookup_None l k :
  (forall u, u ∈ l -> u_id u <> k) -> build_userMap l !! k = None.
Proof.
  induction l as [|u l IH] using rev_ind; intros Hk; [done |].
  rewrite build_userMap_snoc, lookup_insert_ne.
  - apply IH. intros u' Hu'. apply Hk. set_solver.
  - apply Hk. set_solver.
Qed.

Lemma build_userMap_lookup_Some l u :
  NoDup (map u_id l) -> u ∈ l -> build_userMap l !! u_id u = Some (u_name u).
Proof.
  induction l as [|u' l IH] using rev_ind; intros Hnd Hu; [by apply elem_of_nil in Hu |].
  rewrite build_userMap_snoc. rewrite map_app in Hnd. simpl in Hnd.
  apply NoDup_app in Hnd as (Hnd & Hdisj & _).
  apply elem_of_app in Hu as [Hu | Hu].
  - rewrite lookup_insert_ne; [by apply IH |].
    intros Heq. apply (Hdisj (u_id u)); [| rewrite Heq; set_solver].
    apply list_elem_of_fmap. eauto.
  - apply list_elem_of_singleton in Hu as ->. by rewrite lookup_insert_eq.
Qed.

End Hydration.

Section HydrationNames.
Context `{Externals}.

Lemma castObjectId_Ok id oid :
  castObjectId id = Ok oid -> isValidObjectId id = true /\ oid = Str.toLowerCase id.
Proof.
  unfold castObjectId. destruct (isValidObjectId id); [| done]. by intros [= <-].
Qed.

Lemma NoDup_map_filter {A B} (f : A -> B) (g : A -> bool) l :
  NoDup (map f l) -> NoDup (map f (List.filter g l)).
Proof.
  induction l as [|a l IH]; simpl; [done |]. intros Hnd.
  apply NoDup_cons in Hnd as [Ha Hnd]. destruct (g a); simpl; [| by apply IH].
  apply NoDup_cons. split; [| by apply IH].
  intros Hin. apply Ha. apply list_elem_of_fmap in Hin as (a' & -> & Hin).
  apply list_elem_of_fmap. exists a'. split; [done |].
  apply list_elem_of_In. apply list_elem_of_In, filter_In in Hin. tauto.
Qed.

Lemma hydration_users_sub db found u :
  u ∈ hydration_users db found -> u ∈ users db.
Proof.
  unfold hydration_users. rewrite batch_lookup_no_cast_error.
  destruct (users_fault db); simpl; [by intros ?%elem_of_nil |].
  intros Hu. apply list_elem_of_In. apply list_elem_of_In, filter_In in Hu. tauto.
Qed.

(** The author resolves: the post carries the author's display name. *)
Lemma userName_resolved db found post u :
  users_well_formed db -> users_fault db = None ->
  post ∈ found -> u ∈ users db -> u_id u = p_userId post ->
  userName_of (build_userMap (hydration_users db found)) post = u_name u.
Proof.
  intros [Hnd Hwf] Hup Hp Hu Hid.
  destruct (Hwf u Hu) as [Hcast Hname].
  apply castObjectId_Ok in Hcast as [Hvalid Hcanon].
  assert (u ∈ hydration_users db found) as Hin.
  { unfold hydration_users. rewrite batch_lookup_no_cast_error, Hup. simpl.
    apply list_elem_of_In, filter_In. split; [by apply list_elem_of_In |].
    apply existsb_exists. exists (u_id u). split; [| apply String.eqb_refl].
    rewrite Hcanon at 1. apply in_map.
    apply list_elem_of_In, elem_of_remove_dups, list_elem_of_In, filter_In.
    split; [| done]. rewrite Hid. apply in_map. by apply list_elem_of_In. }
  assert (NoDup (map u_id (hydration_users db found))) as Hnd'.
  { unfold hydration_users. rewrite batch_lookup_no_cast_error, Hup. simpl.
    by apply NoDup_map_filter. }
  unfold userName_of. rewrite <- Hid.
  rewrite (build_userMap_lookup_Some _ _ Hnd' Hin). by rewrite Hname.
Qed.

(** The author does not resolve: the post carries the fallback. *)
Lemma userName_unresolved db found post :
  (forall u, u ∈ users db -> u_id u <> p_userId post) ->
  userName_of (build_userMap (hydration_users db found)) post = "Unknown User".
Proof.
  intros Hno. unfold userName_of. rewrite build_userMap_lookup_None; [done |].
  intros u Hu. apply Hno. by apply (hydration_users_sub db found).
Qed.

(** The batch lookup fails: every post carries the fallback, and the
    feed is still answered. *)
Lemma userName_lookup_failed db found post name :
  users_fault db = Some name ->
  userName_of (build_userMap (hydration_users db found)) post = "Unknown User".
Proof.
  intros Hdown. unfold hydration_users. rewrite batch_lookup_no_cast_error, Hdown. done.
Qed.

(** A free text the store does not admit fails the feed request. *)
Lemma get_posts_refused db userId q type :
  searchable q = false ->
  get_posts db userId q type = fail 500 "Internal server error".
Proof.
  intros Hq. unfold get_posts. by rewrite (Post_find_sorted_refused db userId q type Hq).
Qed.

(** The feed without [userId] parameter: always answered 200 when the
    store performs the query, with the names above. *)
Lemma get_posts_batch_hydrated db userId q type :
  falsy userId = true -> posts_fault db = None -> searchable q = true ->
  exists found,
    Post_find_sorted db (build_query userId q type) = Ok found
    /\ get_posts db userId q type =
         mkResponse 200
           (PostList
              (map (format_post (userName_of (build_userMap (hydration_users db found))))
                 found)).
Proof.
  intros Hu Hup Hq.
  destruct (Post_find_sorted_available db userId q type Hup Hq) as (matches & _ & Hf).
  eexists. split; [exact Hf |]. by apply get_posts_batch.
Qed.

(** The feed of one author with a well-formed [userId]: the name of that
    user, or the fallback when there is no such user. *)
Lemma get_posts_single db userId q type found :
  Str.truthy userId = true -> isValidObjectId userId = true ->
  users_fault db = None ->
  Post_find_sorted db (build_query (Some userId) q type) = Ok found ->
  get_posts db (Some userId) q type =
    mkResponse 200
      (PostList
         (map (format_post
                 (fun _ => match List.find (has_id u_id (Str.toLowerCase userId)) (users db) with
                           | Some user => u_name user
                           | None => "Unknown User"
                           end))
              found)).
Proof.
  intros Ht Hv Hup Hf. unfold get_posts. rewrite Hf. simpl. rewrite Ht. simpl.
  unfold User_findById, castObjectId. rewrite Hv, Hup. simpl.
  by destruct (List.find _ _).
Qed.

Lemma get_posts_malformed_userId db userId q type :
  Str.truthy userId = true -> isValidObjectId userId = false ->
  posts_fault db = None ->
  get_posts db (Some userId) q type = fail 500 "Internal server error".
Proof.
  intros Ht Hv Hup.
  destruct (searchable q) eqn:Hq; [| by apply get_posts_refused].
  destruct (Post_find_sorted_available db (Some userId) q type Hup Hq) as (matches & _ & Hf).
  unfold get_posts. rewrite Hf. simpl. rewrite Ht. simpl.
  unfold User_findById, castObjectId. rewrite Hv. done.
Qed.

Lemma get_posts_single_lookup_failure db userId q type name :
  Str.truthy userId = true -> posts_fault db = None ->
  users_fault db = Some name ->
  status (get_posts db (Some userId) q type) = 500.
Proof.
  intros Ht Hup Hdown.
  destruct (searchable q) eqn:Hq; [| by rewrite get_posts_refused].
  destruct (Post_find_sorted_available db (Some userId) q type Hup Hq) as (matches & _ & Hf).
  unfold get_posts. rewrite Hf. simpl. rewrite Ht. simpl.
  unfold User_findById, castObjectId.
  destruct (isValidObjectId userId); simpl; [rewrite Hdown; simpl | done].
  unfold posts_catch. simpl. by destruct (String.eqb name "MongoError").
Qed.

(** C8 (divergence).  When the feed is filtered by [userId], a failure of
    the lookup of the author's name is not degraded to the fallback name:
    the whole request fails with 500, both when [userId] is not a
    well-formed identifier (the lookup raises on the cast) and when the
    store fails during the lookup. *)
Theorem single_author_lookup_failure_fails_feed db userId q type :
  Str.truthy userId = true -> posts_fault db = None ->
  (isValidObjectId userId = false ->
   get_posts db (Some userId) q type = fail 500 "Internal server error")
  /\ (forall name, users_fault db = Some name ->
      status (get_posts db (Some userId) q type) = 500).
Proof.
  intros Ht Hup. split.
  - intros Hv. by apply get_posts_malformed_userId.
  - intros name Hdown. by apply (get_posts_single_lookup_failure _ _ _ _ name).
Qed.

(** C7 (divergence).  The escaping makes a literal of every free text
    the store admits: such a query is accepted and selects a content if
    and only if the content contains the trimmed text as a literal,
    case-insensitive substring.  It does nothing about a NUL: a free text
    that holds one gives a pattern the store refuses, the query throws
    and the feed request is answered 500. *)
Theorem free_text_query_fails_on_nul db userId type (q : string) :
  (searchable (Some q) = true ->
   exists matches,
     content_predicate (build_query userId (Some q) type) = Ok matches
     /\ forall value, matches value = true <-> contains_ci (Str.trim q) value)
  /\ (Ascii.zero ∈ Str.chars q ->
      Post_find_sorted db (build_query userId (Some q) type)
      = Throw (StoreError "MongoServerError")
      /\ get_posts db userId (Some q) type = fail 500 "Internal server error").
Proof.
  split.
  - exact (content_predicate_build_query userId (Some q) type).
  - intros Hnul. apply nul_not_searchable in Hnul. split.
    + by apply Post_find_sorted_refused.
    + by apply get_posts_refused.
Qed.

End HydrationNames.

(** ** Creating a post *)

Section CreatePost.
Context `{Externals}.

Lemma image_reference_is_Some type file :
  is_Some (image_reference type file) <-> type = "HAVE" /\ is_Some file.
Proof.
  unfold image_reference. destruct file as [f|].
  - destruct (String.eqb_spec type "HAVE") as [-> | Hne].
    + split; [by eauto | intros _; by eauto].
    + split; [by intros [? ?] | by intros [? _]].
  - split; [by intros [? ?] | by intros [_ [? ?]]].
Qed.

Lemma image_reference_NEED file : image_reference "NEED" file = None.
Proof. by destruct file. Qed.

Lemma create_catch_status db error : status (create_catch db error).1 <> 201.
Proof.
  unfold create_catch.
  repeat match goal with
         | |- context [if ?b then _ else _] => destruct b
         end; done.
Qed.

Lemma Post_save_Ok env db type content userId imageUrl saved db' :
  Post_save env db type content userId imageUrl = Ok (saved, db') ->
  posts db' = (posts db ++ [saved])%list
  /\ p_type saved = type /\ p_imageUrl saved = imageUrl /\ p_userId saved = userId
  /\ p_createdAt saved = Date_now env.
Proof.
  unfold Post_save. destruct (PostSchema_validate _ _ _); [| done].
  destruct (available (posts_fault db)); simpl; [| done].
  by intros [= <- <-].
Qed.

(** C10.  Whenever the handler of [POST /api/posts] persists a post
    (status 201), the stored post carries an image reference exactly when
    the type is HAVE and a file accompanies the request; in particular a
    NEED post has none, with or without a file. *)
Theorem created_post_image env db user type content file response db' :
  create_post env db user type content file = (response, db') ->
  status response = 201 ->
  exists saved,
    posts db' = (posts db ++ [saved])%list
    /\ p_type saved = type
    /\ (type = "NEED" -> p_imageUrl saved = None)
    /\ (is_Some (p_imageUrl saved) <-> type = "HAVE" /\ is_Some file).
Proof.
  unfold create_post. destruct (bool_decide _); simpl.
  2: { intros [= <- <-]. done. }
  destruct (User_findById db (user_id user)) as [[author|]|error]; simpl.
  - destruct (Post_save _ _ _ _ _ _) as [[saved db'']|error] eqn:Hsave; simpl.
    + intros [= <- <-] _. apply Post_save_Ok in Hsave as (Hposts & Htype & Himg & _).
      exists saved. split; [done |]. split; [done |]. rewrite Himg. split.
      * intros ->. apply image_reference_NEED.
      * apply image_reference_is_Some.
    + intros Heq Hst. pose proof (create_catch_status db error) as Hne.
      rewrite Heq in Hne. done.
  - intros [= <- <-]. done.
  - intros Heq Hst. pose proof (create_catch_status db error) as Hne.
    rewrite Heq in Hne. done.
Qed.

End CreatePost.

(** ** Deleting a post *)

Lemma isValidObjectId_truthy id : isValidObjectId id = true -> Str.truthy id = true.
Proof. by destruct id. Qed.

Lemma remove_first_absent oid (l : list Post) p :
  NoDup (map p_id l) -> p ∈ remove_first (has_id p_id oid) l -> p_id p <> oid.
Proof.
  induction l as [|a l IH]; simpl; [by intros _ ?%elem_of_nil |].
  intros Hnd. apply NoDup_cons in Hnd as [Ha Hnd]. unfold has_id at 1.
  destruct (String.eqb_spec (p_id a) oid) as [Heq | Hne].
  - intros Hp <-. apply Ha. rewrite Heq. apply list_elem_of_fmap. eauto.
  - intros [-> | Hp]%elem_of_cons; [done | by apply IH].
Qed.

Lemma find_has_id oid (l : list Post) post :
  List.find (has_id p_id oid) l = Some post -> post ∈ l /\ p_id post = oid.
Proof.
  intros Hf. apply find_some in Hf as [Hin Hid]. split; [by apply list_elem_of_In |].
  by apply String.eqb_eq.
Qed.

Lemma Post_find_sorted_sub db query found p :
  Post_find_sorted db query = Ok found -> p ∈ found -> p ∈ posts db.
Proof.
  intros Hf Hp. apply Post_find_sorted_spec in Hf as (_ & matches & _ & Hperm).
  rewrite Hperm in Hp. apply list_elem_of_In. apply list_elem_of_In, filter_In in Hp. tauto.
Qed.

(** For a well-formed id: no such post, 404 and nothing changes. *)
Lemma delete_post_not_found db user id oid :
  castObjectId id = Ok oid -> posts_fault db = None ->
  List.find (has_id p_id oid) (posts db) = None ->
  delete_post db user id = (fail 404 "Post not found", db).
Proof.
  intros Hc Hup Hf. unfold delete_post, Post_findById. rewrite Hc, Hup. simpl.
  by rewrite Hf.
Qed.

(** The post of another user: 403 and nothing changes. *)
Lemma delete_post_forbidden db user id oid post :
  castObjectId id = Ok oid -> posts_fault db = None ->
  List.find (has_id p_id oid) (posts db) = Some post ->
  p_userId post <> user_id user ->
  delete_post db user id = (fail 403 "You can only delete your own posts", db).
Proof.
  intros Hc Hup Hf Hne. unfold delete_post, Post_findById. rewrite Hc, Hup. simpl.
  rewrite Hf. by rewrite (proj2 (String.eqb_neq _ _) Hne).
Qed.

(** The requester's own post: 200, and no later query returns a post
    with that id. *)
Lemma delete_post_by_author db user id oid post :
  posts_well_formed db ->
  castObjectId id = Ok oid -> posts_fault db = None ->
  List.find (has_id p_id oid) (posts db) = Some post ->
  p_userId post = user_id user ->
  exists db',
    delete_post db user id = (mkResponse 200 (Success "Post deleted successfully"), db')
    /\ users db' = users db
    /\ forall query found p,
         Post_find_sorted db' query = Ok found -> p ∈ found -> p_id p <> oid.
Proof.
  intros Hwf Hc Hup Hf Heq. eexists. split; [| split].
  - unfold delete_post, Post_findById, Post_findByIdAndDelete. rewrite Hc, Hup. simpl.
    rewrite Hf. rewrite (proj2 (String.eqb_eq _ _) Heq). simpl. reflexivity.
  - done.
  - intros query found p Hq Hp. apply (Post_find_sorted_sub _ _ _ _ Hq) in Hp.
    simpl in Hp. by apply (remove_first_absent oid (posts db)).
Qed.

Lemma delete_post_malformed_id db user id :
  isValidObjectId id = false ->
  delete_post db user id = (fail 500 "Internal server error", db).
Proof.
  intros Hv. unfold delete_post, Post_findById, castObjectId. by rewrite Hv.
Qed.

(** The serverless delete function removes the post for any requester
    whose header starts with [Bearer ]: no owner is compared. *)
Lemma api_delete_without_ownership db h id oid post :
  Str.startsWith "Bearer " h = true ->
  castObjectId id = Ok oid -> posts_fault db = None ->
  List.find (has_id p_id oid) (posts db) = Some post ->
  ApiPostsId.handler db (Some h) id
  = (mkResponse 200 (JustMessage "Post deleted successfully"),
     mkDb (users db) (remove_first (has_id p_id oid) (posts db))
          (users_fault db) (posts_fault db)).
Proof.
  intros Hb Hc Hup Hf. unfold ApiPostsId.handler.
  destruct (castObjectId_Ok _ _ Hc) as [Hv _].
  rewrite (isValidObjectId_truthy _ Hv), Hb. simpl.
  unfold Post_findById, Post_findByIdAndDelete. rewrite Hc, Hup. simpl. by rewrite Hf.
Qed.

(** C1 (divergence).  Two requests on which the delete operation does not
    follow the contract.  In the Express handler, an id that is not a
    well-formed identifier belongs to no post, yet the answer is 500 and
    not 404: the lookup raises and the [catch] block answers.  In the
    serverless function, a post is deleted with status 200 whoever asks,
    its author or not: there is no 403. *)
Theorem delete_contract_divergences :
  (forall db user id,
     isValidObjectId id = false ->
     delete_post db user id = (fail 500 "Internal server error", db))
  /\ (forall db h id oid post,
        Str.startsWith "Bearer " h = true ->
        castObjectId id = Ok oid -> posts_fault db = None ->
        List.find (has_id p_id oid) (posts db) = Some post ->
        ApiPostsId.handler db (Some h) id
        = (mkResponse 200 (JustMessage "Post deleted successfully"),
           mkDb (users db) (remove_first (has_id p_id oid) (posts db))
                (users_fault db) (posts_fault db))).
Proof.
  split.
  - exact delete_post_malformed_id.
  - exact api_delete_without_ownership.
Qed.

(** ** The properties at work on the concrete instance *)

Section Examples.
Import Demo.
Local Existing Instance externals.

(** A valid token presented with the scheme [Basic] authenticates. *)
Example basic_scheme_authenticates :
  authenticateToken env db (Some ("Basic " ++ ann_token)) = Next ann_identity.
Proof. reflexivity. Qed.

Lemma authenticateToken_ignores_scheme_witness :
  authenticateToken env db (Some ("Basic" ++ String " " ann_token))
  = authenticateToken env db (Some ("Bearer " ++ ann_token)).
Proof. apply (authenticateToken_ignores_scheme env db "Basic" ann_token); reflexivity. Defined.

Example expired_token_answer :
  authenticateToken env db (Some ("Bearer " ++ expired_token))
  = Respond (fail 401 "Invalid token").
Proof. reflexivity. Qed.

Lemma expired_and_forged_same_response_witness :
  authenticateToken env db (Some ("Bearer " ++ expired_token))
  = Respond (fail 401 "Invalid token")
  /\ authenticateToken env db (Some ("Bearer " ++ forged_token))
     = authenticateToken env db (Some ("Bearer " ++ expired_token)).
Proof.
  apply (expired_and_forged_same_response env db secret
           (Some ("Bearer " ++ expired_token)) expired_token old_claims
           (Some ("Bearer " ++ forged_token)) forged_token ann_claims "forged");
    try reflexivity.
  - vm_compute. discriminate.
  - vm_compute. discriminate.
Defined.

Lemma authenticateRequest_unknown_subject_witness :
  ApiAuthRequest.authenticateRequest env (Some ("Bearer " ++ carl_token))
  = (true, Some (mkApiIdentity carl_id "c@x.com" None)).
Proof.
  apply (authenticateRequest_unknown_subject env db ("Bearer " ++ carl_token)
           carl_token carl_claims); reflexivity.
Defined.

Example deleted_user_rejected_by_middleware :
  authenticateToken env db (Some ("Bearer " ++ carl_token))
  = Respond (fail 401 "User not found").
Proof. reflexivity. Qed.

Example login_failure_uniform_on_strings_example :
  login env db "zed@x.com" "secret1" = login env db "A@X.com" "secret2"
  /\ login env db "zed@x.com" "secret1" = fail 401 "Invalid email or password".
Proof.
  apply (login_failure_uniform_on_strings env db "zed@x.com" "secret1"
           env db "A@X.com" "secret2" ann);
    reflexivity.
Qed.

Lemma login_failure_tells_causes_apart_witness :
  login env db "zed@x.com" (NotText "number" "123456")
  = fail 401 "Invalid email or password"
  /\ login env db "A@X.com" (NotText "number" "123456") = fail 500 "Login failed"
  /\ status (login env db "zed@x.com" (NotText "number" "123456"))
     <> status (login env db "A@X.com" (NotText "number" "123456")).
Proof.
  apply (login_failure_tells_causes_apart env db "zed@x.com" "A@X.com" "number" "123456" ann);
    reflexivity.
Defined.

Example login_succeeds_case_insensitively :
  status (login env db "A@X.com" "secret1") = 200.
Proof. reflexivity. Qed.

Lemma find_newest_first_unless_refused_witness :
  (exists found,
     Post_find_sorted db (build_query None (Some "E") None) = Ok found
     /\ StronglySorted newest_first found
     /\ (forall post, post ∈ found <-> post ∈ posts db /\ wanted None (Some "E") None post)
     /\ exists matches,
          content_predicate (build_query None (Some "E") None) = Ok matches
          /\ Permutation found
               (List.filter (selects (build_query None (Some "E") None) matches) (posts db)))
  /\ Post_find_sorted db (build_query None (Some nul_text) None)
     = Throw (StoreError "MongoServerError").
Proof.
  split.
  - apply (find_newest_first_unless_refused db None (Some "E") None); reflexivity.
  - apply (find_newest_first_unless_refused db None (Some nul_text) None); [reflexivity |].
    exists nul_text. split; [reflexivity | by left].
Defined.

(** The result of that query: the two posts with an [e], the newer
    first, which is not the order they were stored in. *)
Example feed_search_e :
  Post_find_sorted db (build_query None (Some "E") None) = Ok [have_desk; need_office].
Proof. reflexivity. Qed.

Lemma free_text_query_fails_on_nul_witness :
  Post_find_sorted db (build_query None (Some nul_text) None)
  = Throw (StoreError "MongoServerError")
  /\ get_posts db None (Some nul_text) None = fail 500 "Internal server error".
Proof.
  apply (proj2 (free_text_query_fails_on_nul db None None nul_text)). by left.
Defined.

Example feed_newest_first :
  Post_find_sorted db (build_query None None None) = Ok [have_desk; orphan; need_office].
Proof. reflexivity. Qed.

Example feed_search_office :
  Post_find_sorted db (build_query None (Some "OFFICE") None) = Ok [need_office]
  /\ Post_find_sorted db (build_query None (Some "office") (Some "HAVE")) = Ok [].
Proof. split; reflexivity. Qed.

Example feed_search_metacharacters :
  Post_find_sorted db (build_query None (Some " a.*b ") None) = Ok [have_desk]
  /\ Post_find_sorted db (build_query None (Some "(x") None) = Ok [orphan].
Proof. split; reflexivity. Qed.

Lemma single_author_lookup_failure_fails_feed_witness :
  get_posts db (Some "abc") None None = fail 500 "Internal server error"
  /\ status (get_posts (mkDb [ann; bob] (posts db) (Some "MongoNetworkError") None)
               (Some ann_id) None None) = 500.
Proof.
  split.
  - apply (single_author_lookup_failure_fails_feed db "abc" None None); reflexivity.
  - apply (single_author_lookup_failure_fails_feed
             (mkDb [ann; bob] (posts db) (Some "MongoNetworkError") None) ann_id None None)
      with (name := "MongoNetworkError"); reflexivity.
Defined.

Example feed_names :
  match body (get_posts db None None None) with
  | PostList views => map pv_userName views = ["Bob"; "Unknown User"; "Ann"]
  | _ => False
  end.
Proof. reflexivity. Qed.

Example feed_names_when_lookup_fails :
  match body (get_posts (mkDb [ann; bob] (posts db) (Some "MongoNetworkError") None)
                None None None) with
  | PostList views => map pv_userName views = ["Unknown User"; "Unknown User"; "Unknown User"]
  | _ => False
  end.
Proof. reflexivity. Qed.

Lemma verify_generateToken_roundtrip_witness :
  exists token decoded,
    generateToken (mkEnv (Some secret) (issued_at * 1000) "") (u_id ann) (u_email ann) = Ok token
    /\ jwt_verify env token secret = Ok decoded
    /\ c_userId decoded = u_id ann.
Proof.
  apply (verify_generateToken_roundtrip ann (mkEnv (Some secret) (issued_at * 1000) "")
           env secret); try reflexivity.
  split; reflexivity.
Defined.

Lemma created_post_image_witness :
  exists saved,
    posts (create_post env db ann_identity "NEED" "need a desk"
             (Some (mkUploadedFile "1700000000-42.png"))).2
    = (posts db ++ [saved])%list
    /\ p_type saved = "NEED"
    /\ ("NEED" = "NEED" -> p_imageUrl saved = None)
    /\ (is_Some (p_imageUrl saved)
        <-> "NEED" = "HAVE" /\ is_Some (Some (mkUploadedFile "1700000000-42.png"))).
Proof.
  apply (created_post_image env db ann_identity "NEED" "need a desk"
           (Some (mkUploadedFile "1700000000-42.png"))
           (create_post env db ann_identity "NEED" "need a desk"
              (Some (mkUploadedFile "1700000000-42.png"))).1);
    reflexivity.
Defined.

Example have_post_keeps_its_image :
  p_imageUrl <$> last (posts (create_post env db bob_identity "HAVE" "have a desk"
                                (Some (mkUploadedFile "7.png"))).2)
  = Some (Some "/uploads/7.png").
Proof. reflexivity. Qed.

Lemma delete_contract_divergences_witness :
  delete_post db ann_identity "abc" = (fail 500 "Internal server error", db)
  /\ ApiPostsId.handler db (Some "Bearer anything") (p_id have_desk)
     = (mkResponse 200 (JustMessage "Post deleted successfully"),
        mkDb [ann; bob] [need_office; orphan] None None).
Proof.
  split.
  - apply (proj1 delete_contract_divergences db ann_identity "abc"). reflexivity.
  - apply (proj2 delete_contract_divergences db "Bearer anything" (p_id have_desk)
             (p_id have_desk) have_desk); reflexivity.
Defined.

Example delete_outcomes :
  status (delete_post db ann_identity (p_id have_desk)).1 = 403
  /\ posts (delete_post db ann_identity (p_id have_desk)).2 = posts db
  /\ status (delete_post db ann_identity "64f1a2b3c4d5e6f708090b09").1 = 404
  /\ delete_post db ann_identity (p_id need_office)
     = (mkResponse 200 (Success "Post deleted successfully"),
        mkDb [ann; bob] [have_desk; orphan] None None).
Proof. repeat split; reflexivity. Qed.

(** Anyone deletes Bob's post through the serverless function. *)
Example api_delete_of_another_users_post :
  ApiPostsId.handler db (Some "Bearer anything") (p_id have_desk)
  = (mkResponse 200 (JustMessage "Post deleted successfully"),
     mkDb [ann; bob] [need_office; orphan] None None).
Proof. reflexivity. Qed.

End Examples.

(** * Further properties of the handlers *)

(** ** Deleting a post (Express) *)

Lemma remove_first_elem_of oid (l : list Post) p :
  NoDup (map p_id l) ->
  p ∈ remove_first (has_id p_id oid) l <-> p ∈ l /\ p_id p <> oid.
Proof.
  intros Hnd. split.
  - intros Hp. split; [| by apply (remove_first_absent oid l)].
    clear Hnd. induction l as [|a l IH]; simpl in Hp; [done |].
    destruct (has_id p_id oid a); [set_solver |].
    apply elem_of_cons in Hp as [-> | Hp]; set_solver.
  - clear Hnd. intros [Hp Hne]. induction l as [|a l IH]; [done |]. simpl.
    apply elem_of_cons in Hp as [-> | Hp].
    + unfold has_id. rewrite (proj2 (String.eqb_neq _ _) Hne). set_solver.
    + destruct (has_id p_id oid a); [done |]. set_solver.
Qed.

(** X1.  For a well-formed id and a readable store, a delete request
    that does not come from the author of an existing post is refused
    and changes nothing: 404 when no post has the id, 403 when the post
    belongs to someone else. *)
Theorem delete_post_refused db user id oid :
  castObjectId id = Ok oid -> posts_fault db = None ->
  (forall post, List.find (has_id p_id oid) (posts db) = Some post ->
                p_userId post <> user_id user) ->
  delete_post db user id
  = (match List.find (has_id p_id oid) (posts db) with
     | Some _ => fail 403 "You can only delete your own posts"
     | None => fail 404 "Post not found"
     end, db).
Proof.
  intros Hc Hup Hother.
  destruct (List.find (has_id p_id oid) (posts db)) as [post|] eqn:Hf.
  - by apply (delete_post_forbidden db user id oid post); [.. | apply Hother].
  - by apply (delete_post_not_found db user id oid).
Qed.

(** X2.  When the author deletes an own post, the answer is 200, the
    users are untouched, and the posts that remain are exactly the
    other posts. *)
Theorem delete_post_own db user id oid post :
  posts_well_formed db ->
  castObjectId id = Ok oid -> posts_fault db = None ->
  List.find (has_id p_id oid) (posts db) = Some post ->
  p_userId post = user_id user ->
  exists db',
    delete_post db user id = (mkResponse 200 (Success "Post deleted successfully"), db')
    /\ users db' = users db
    /\ forall p, p ∈ posts db' <-> p ∈ posts db /\ p_id p <> oid.
Proof.
  intros Hwf Hc Hup Hf Heq. eexists. split; [| split].
  - unfold delete_post, Post_findById, Post_findByIdAndDelete. rewrite Hc, Hup. simpl.
    rewrite Hf. rewrite (proj2 (String.eqb_eq _ _) Heq). simpl. reflexivity.
  - done.
  - intros p. simpl. by apply remove_first_elem_of.
Qed.

Section DeleteRoute.
Context `{Externals}.

(** X3.  Whatever the request, the route [DELETE /api/posts/:id] leaves
    the users alone, and either leaves the posts alone or answers 200
    after removing one post whose author is the user the middleware
    has authenticated. *)
Theorem DELETE_route_removes_only_own_posts env db authHeader id :
  users (DELETE_posts_id env db authHeader id).2 = users db
  /\ (posts (DELETE_posts_id env db authHeader id).2 = posts db
      \/ exists user post,
           authenticateToken env db authHeader = Next user
           /\ post ∈ posts db
           /\ p_userId post = user_id user
           /\ status (DELETE_posts_id env db authHeader id).1 = 200
           /\ posts (DELETE_posts_id env db authHeader id).2
              = remove_first (has_id p_id (p_id post)) (posts db)).
Proof.
  unfold DELETE_posts_id.
  destruct (authenticateToken env db authHeader) as [r | user] eqn:Hauth; simpl;
    [by auto |].
  unfold delete_post, Post_findById, Post_findByIdAndDelete.
  destruct (castObjectId id) as [oid|]; simpl; [| by auto].
  destruct (available (posts_fault db)); simpl; [| by auto].
  destruct (List.find (has_id p_id oid) (posts db)) as [post|] eqn:Hf; simpl; [| by auto].
  destruct (String.eqb_spec (p_userId post) (user_id user)) as [Heq | Hne]; simpl;
    [| by auto].
  split; [done |]. right. exists user, post.
  apply find_has_id in Hf as [Hin <-]. done.
Qed.

End DeleteRoute.

(** ** Login and tokens *)

Section LoginTokens.
Context `{Externals}.

(** X5.  With valid credentials and a configured secret, the login
    handler answers 200 with the user's public fields and a token; that
    token verifies under the same secret at any time within seven days
    and names the user's id and email. *)
Theorem login_success_token_verifies env db email (password : string) user secret :
  validateLogin email password = [] -> users_fault db = None ->
  List.find (fun u => String.eqb (u_email u) (Str.toLowerCase (normalizeEmail email)))
    (users db) = Some user ->
  bcrypt_compare password (u_password user) = true ->
  JWT_SECRET env = Some secret -> Str.truthy secret = true ->
  (let claims := issued_claims env (u_id user) (u_email user) in
   let token := jws_serialize claims (hmac secret claims) in
   Str.truthy token = true /\ jws_parse token = Some (claims, hmac secret claims)) ->
  exists token,
    login env db email password
    = mkResponse 200
        (AuthSuccess "Login successful"
           (mkUserView (u_id user) (u_name user) (u_email user)) token)
    /\ forall verify,
         seconds (Date_now verify) < seconds (Date_now env) + SEVEN_DAYS ->
         exists decoded,
           jwt_verify verify token secret = Ok decoded
           /\ c_userId decoded = u_id user /\ c_email decoded = u_email user.
Proof.
  intros Hv Hup Hf Hpw Hs Hts [Htok Hcodec].
  eexists. split.
  - rewrite (login_validated _ _ _ _ Hv). unfold User_findOne_email.
    rewrite Hup. simpl. rewrite Hf. unfold comparePassword. rewrite Hpw. simpl.
    rewrite (generateToken_configured _ _ _ _ Hs Hts). simpl. reflexivity.
  - intros verify Hfresh. exists (issued_claims env (u_id user) (u_email user)).
    split; [| done]. by apply jwt_verify_valid.
Qed.

(** X7.  Without a configured secret the login handler cannot issue a
    token: valid credentials are answered 500 [Login failed]. *)
Theorem login_without_secret env db email (password : string) user :
  validateLogin email password = [] -> users_fault db = None ->
  List.find (fun u => String.eqb (u_email u) (Str.toLowerCase (normalizeEmail email)))
    (users db) = Some user ->
  bcrypt_compare password (u_password user) = true ->
  falsy (JWT_SECRET env) = true ->
  login env db email password = fail 500 "Login failed".
Proof.
  intros Hv Hup Hf Hpw Hs. rewrite (login_validated _ _ _ _ Hv).
  unfold User_findOne_email. rewrite Hup. simpl. rewrite Hf.
  unfold comparePassword. rewrite Hpw. simpl. unfold generateToken. by rewrite Hs.
Qed.

(** X8.  The two serverless helpers that authenticate a request,
    [verifyToken(req)] and [authenticateRequest(req)], give the same
    verdict and attach the same identity on every header. *)
Theorem serverless_helpers_agree env authHeader :
  ApiUtilsAuth.verifyToken env authHeader
  = ApiAuthRequest.authenticateRequest env authHeader.
Proof.
  unfold ApiUtilsAuth.verifyToken, ApiAuthRequest.authenticateRequest,
    ApiAuthRequest.verifyToken.
  destruct authHeader as [h|]; simpl; [| done].
  destruct (Str.startsWith "Bearer " h); simpl; [| done].
  by destruct (jwt_verify env _ (api_secret env)).
Qed.

Lemma startsWith_app p s : Str.startsWith p (p ++ s) = true.
Proof.
  unfold Str.startsWith. induction p as [|a p IH]; simpl; [by destruct s |].
  by destruct (ascii_dec a a).
Qed.

(** X9.  When no secret is configured, the serverless helpers verify
    against the default secret written in the source: a token signed
    with ['your-default-secret'] is accepted and its identity attached. *)
Theorem serverless_default_secret env issue userId email username :
  falsy (JWT_SECRET env) = true ->
  (let token := jwt_sign issue userId email username "your-default-secret" in
   let claims := mkClaims userId email username (seconds (Date_now issue))
                   (seconds (Date_now issue) + SEVEN_DAYS) in
   Str.truthy token = true /\ free_of " " token = true
   /\ jws_parse token = Some (claims, hmac "your-default-secret" claims)) ->
  seconds (Date_now env) < seconds (Date_now issue) + SEVEN_DAYS ->
  ApiAuthRequest.authenticateRequest env
    (Some ("Bearer " ++ jwt_sign issue userId email username "your-default-secret"))
  = (true, Some (mkApiIdentity userId email username)).
Proof.
  intros Hs (Htok & Hfree & Hcodec) Hfresh.
  unfold ApiAuthRequest.authenticateRequest, ApiAuthRequest.verifyToken.
  rewrite startsWith_app. simpl negb. cbv iota.
  change ("Bearer " ++ ?t) with ("Bearer" ++ String " " t).
  rewrite (split_word_rest " " "Bearer" _ eq_refl), (split_free _ _ Hfree). simpl.
  unfold api_secret. rewrite Hs.
  by rewrite (jwt_verify_valid _ _ _ _ Htok Hcodec Hfresh).
Qed.

End LoginTokens.

(** ** Trimming *)

Lemma trim_start_idem l : Str.trim_start (Str.trim_start l) = Str.trim_start l.
Proof.
  induction l as [|c l IH]; simpl; [done |].
  destruct (Str.is_space c) eqn:Hc; [done |]. simpl. by rewrite Hc.
Qed.

Lemma trim_start_head l c l' : Str.trim_start l = c :: l' -> Str.is_space c = false.
Proof.
  induction l as [|x l IH]; simpl; [done |].
  destruct (Str.is_space x) eqn:Hx; [done |]. by intros [= <- _].
Qed.

Lemma trim_start_suffix l : exists pre, l = (pre ++ Str.trim_start l)%list.
Proof.
  induction l as [|c l (pre & IH)]; simpl; [by exists [] |].
  destruct (Str.is_space c).
  - exists (c :: pre). simpl. by rewrite <- IH.
  - by exists [].
Qed.



Lemma trim_chars_idem l : Str.trim_chars (Str.trim_chars l) = Str.trim_chars l.
Proof.
  unfold Str.trim_chars.
  set (t := Str.trim_start l). set (u := Str.trim_start (rev t)).
  assert (Str.trim_start u = u) as Hu by apply trim_start_idem.
  destruct (rev u) as [|h w] eqn:Hrev.
  - done.
  - assert (Str.is_space h = false) as Hh.
    { destruct (trim_start_suffix (rev t)) as (pre & Hpre). fold u in Hpre.
      apply (f_equal (@rev ascii)) in Hpre. rewrite rev_involutive, rev_app_distr, Hrev in Hpre.
      simpl in Hpre. by apply (trim_start_head l h (w ++ rev pre)). }
    simpl Str.trim_start at 2. rewrite Hh, <- Hrev, rev_involutive, Hu. done.
Qed.

Lemma trim_idem s : Str.trim (Str.trim s) = Str.trim s.
Proof. unfold Str.trim. by rewrite chars_of_chars, trim_chars_idem. Qed.


(** ** The feed (Express) *)

Section FeedNames.
Context `{Externals}.

Lemma find_has_id_user oid (l : list User) u :
  List.find (has_id u_id oid) l = Some u -> u ∈ l /\ u_id u = oid.
Proof.
  intros Hf. apply find_some in Hf as [Hin Hid]. split; [by apply list_elem_of_In |].
  by apply String.eqb_eq.
Qed.

Lemma hydrated_name db found post :
  users_well_formed db -> users_fault db = None -> post ∈ found ->
  userName_of (build_userMap (hydration_users db found)) post
  = match List.find (has_id u_id (p_userId post)) (users db) with
    | Some user => u_name user
    | None => "Unknown User"
    end.
Proof.
  intros Hwf Hup Hp.
  destruct (List.find (has_id u_id (p_userId post)) (users db)) as [u|] eqn:Hf.
  - apply find_has_id_user in Hf as [Hu Hid]. by apply userName_resolved.
  - apply userName_unresolved. intros u Hu Hid.
    pose proof (find_none _ _ Hf u (proj1 (list_elem_of_In _ _) Hu)) as Hnone.
    unfold has_id in Hnone. apply String.eqb_neq in Hnone. done.
Qed.

(** X10.  The feed without [userId] parameter, on a readable store whose
    users have unique, well-formed ids and non-empty names, for a free
    text the store admits: the answer is 200 and lists the selected posts
    newest first, each with the name of the user whose id is the post's
    [userId], or ["Unknown User"] when no user has that id. *)
Theorem feed_names_resolved db userId q type :
  users_well_formed db -> users_fault db = None -> posts_fault db = None ->
  falsy userId = true -> searchable q = true ->
  exists found,
    Post_find_sorted db (build_query userId q type) = Ok found
    /\ StronglySorted newest_first found
    /\ get_posts db userId q type
       = mkResponse 200
           (PostList
              (map (format_post
                      (fun post =>
                         match List.find (has_id u_id (p_userId post)) (users db) with
                         | Some user => u_name user
                         | None => "Unknown User"
                         end))
                 found)).
Proof.
  intros Hwf Hup Hpup Hu Hq.
  destruct (get_posts_batch_hydrated db userId q type Hu Hpup Hq) as (found & Hf & Hresp).
  exists found. split; [done |].
  split; [by apply (Post_find_sorted_spec db _ _ Hf) |].
  rewrite Hresp. do 2 f_equal. apply map_ext_in. intros post Hin.
  unfold format_post. f_equal. apply hydrated_name; [done | done |].
  by apply list_elem_of_In.
Qed.

(** X11.  The same feed when the users cannot be read: the answer is
    still 200 with the same posts, every one under ["Unknown User"]. *)
Theorem feed_names_degraded db userId q type name :
  users_fault db = Some name -> posts_fault db = None ->
  falsy userId = true -> searchable q = true ->
  exists found,
    Post_find_sorted db (build_query userId q type) = Ok found
    /\ get_posts db userId q type
       = mkResponse 200 (PostList (map (format_post (fun _ => "Unknown User")) found)).
Proof.
  intros Hdown Hpup Hu Hq.
  destruct (get_posts_batch_hydrated db userId q type Hu Hpup Hq) as (found & Hf & Hresp).
  exists found. split; [done |]. rewrite Hresp. do 2 f_equal.
  apply map_ext. intros post. unfold format_post. f_equal.
  by apply (userName_lookup_failed db found post name).
Qed.

End FeedNames.

(** ** Creating a post (Express) *)

Section CreatePostMore.
Context `{Externals}.

Lemma validatePostData_nil type content :
  validatePostData type content = [] ->
  (String.eqb type "NEED" || String.eqb type "HAVE") = true
  /\ (1 <= length (Str.chars content) <= 1000)%nat.
Proof.
  unfold validatePostData.
  destruct (String.eqb type "NEED" || String.eqb type "HAVE"); [| done].
  destruct ((1 <=? length (Str.chars content))%nat
            && (length (Str.chars content) <=? 1000)%nat) eqn:Hlen; [| done].
  intros _. split; [done |]. apply andb_prop in Hlen as [H1 H2].
  apply Nat.leb_le in H1, H2. lia.
Qed.


Lemma type_truthy type :
  (String.eqb type "NEED" || String.eqb type "HAVE") = true -> Str.truthy type = true.
Proof. by destruct type. Qed.



(** X12.  A content made only of white space passes the validation of
    the request (its length counts) but not that of the model: the
    answer is 400 [Invalid data provided] and nothing is stored. *)
Theorem create_post_blank_content env db user type content file author :
  validatePostData type content = [] ->
  User_findById db (user_id user) = Ok (Some author) ->
  Str.trim content = "" ->
  exists details,
    create_post env db user type content file
    = (mkResponse 400 (FailureWith "Invalid data provided" details), db).
Proof.
  intros Hv Hu Ht. unfold create_post. rewrite Hv. simpl. rewrite Hu. simpl.
  destruct (validatePostData_nil _ _ Hv) as [Htype _].
  unfold Post_save, PostSchema_validate.
  rewrite trim_idem, (type_truthy _ Htype), Htype, Ht. simpl. by eexists.
Qed.



Lemma find_snoc_fresh {A} (f : A -> bool) l x :
  (forall a, a ∈ l -> f a = false) -> f x = true ->
  List.find f (l ++ [x]) = Some x.
Proof.
  intros Hl Hx. induction l as [|a l IH]; simpl; [by rewrite Hx |].
  rewrite (Hl a) by set_solver. apply IH. intros a' Ha'. apply Hl. set_solver.
Qed.


End CreatePostMore.

(** ** Registration *)

Lemma lower_char_idem c : Str.lower_char (Str.lower_char c) = Str.lower_char c.
Proof. destruct c as [[] [] [] [] [] [] [] []]; reflexivity. Qed.

Lemma Forall_trim_start (P : ascii -> Prop) l : Forall P l -> Forall P (Str.trim_start l).
Proof.
  induction 1 as [|c l Hc Hl IH]; simpl; [done |].
  destruct (Str.is_space c); [done | by constructor].
Qed.

Lemma Forall_trim_chars (P : ascii -> Prop) l : Forall P l -> Forall P (Str.trim_chars l).
Proof.
  intros Hl. unfold Str.trim_chars.
  apply Forall_rev, Forall_trim_start, Forall_rev, Forall_trim_start, Hl.
Qed.

Lemma toLowerCase_fixed s :
  Forall (fun c => Str.lower_char c = c) (Str.chars s) -> Str.toLowerCase s = s.
Proof.
  intros Hs. unfold Str.toLowerCase. rewrite <- (of_chars_chars s) at 2. f_equal.
  induction Hs as [|c l Hc Hl IH]; simpl; [done |]. by rewrite Hc, IH.
Qed.

(** Trimming a lower-cased text leaves it lower-cased. *)
Lemma toLowerCase_trim_toLowerCase s :
  Str.toLowerCase (Str.trim (Str.toLowerCase s)) = Str.trim (Str.toLowerCase s).
Proof.
  apply toLowerCase_fixed. unfold Str.trim, Str.toLowerCase.
  rewrite !chars_of_chars. apply Forall_trim_chars, Forall_forall.
  intros c Hc. apply list_elem_of_fmap in Hc as (c' & -> & _). apply lower_char_idem.
Qed.

Lemma existsb_find_None {A} (f : A -> bool) l : List.find f l = None -> existsb f l = false.
Proof.
  induction l as [|a l IH]; simpl; [done |]. destruct (f a); [done | exact IH].
Qed.

Section Registration.
Context `{Externals} `{Bcrypt}.

(** The email the registration handler stores. *)
Lemma stored_email email :
  Str.toLowerCase (Str.trim (Str.trim (Str.toLowerCase email)))
  = Str.trim (Str.toLowerCase email).
Proof. by rewrite trim_idem, toLowerCase_trim_toLowerCase. Qed.

Lemma User_save_Inserted env salt db name email password saved db' :
  User_save env salt db name email password = Inserted saved db' ->
  saved = mkUser (new_ObjectId env) (Str.trim name) (Str.toLowerCase (Str.trim email))
            (bcrypt_hash password salt)
  /\ db' = mkDb (users db ++ [saved]) (posts db) (users_fault db) (posts_fault db)
  /\ UserSchema_validate (Str.trim name) (Str.toLowerCase (Str.trim email)) password = []
  /\ users_fault db = None
  /\ existsb (fun u => String.eqb (u_email u) (Str.toLowerCase (Str.trim email))) (users db)
     = false.
Proof.
  unfold User_save.
  destruct (UserSchema_validate _ _ _) as [|failure failures]; [| done].
  destruct (users_fault db); [done |].
  destruct (existsb _ (users db)); [done |]. by intros [= <- <-].
Qed.

Lemma existsb_email_false (l : list User) email :
  existsb (fun u => String.eqb (u_email u) email) l = false ->
  email ∉ map u_email l.
Proof.
  intros He Hin. apply list_elem_of_fmap in Hin as (u & -> & Hu).
  assert (existsb (fun u' => String.eqb (u_email u') (u_email u)) l = true) as Ht.
  { apply existsb_exists. exists u. split; [by apply list_elem_of_In | apply String.eqb_refl]. }
  congruence.
Qed.

(** X15.  Registration keeps the emails of the users collection
    distinct, whatever the request and its outcome, and never touches
    the posts. *)
Theorem register_keeps_emails_unique env salt db name email password :
  NoDup (map u_email (users db)) ->
  NoDup (map u_email (users (register env salt db name email password).2))
  /\ posts (register env salt db name email password).2 = posts db.
Proof.
  intros Hnd. unfold register. destruct (bool_decide _); simpl; [| done].
  destruct (User_findOne_email _ _) as [[existing|]|error]; simpl; [done | | done].
  destruct (User_save _ _ _ _ _ _) as [saved db'| |error] eqn:Hsave; simpl; [| done | done].
  apply User_save_Inserted in Hsave as (-> & -> & _ & _ & Hnew).
  assert (NoDup (map u_email (users db ++ [mkUser (new_ObjectId env)
            (Str.trim (Str.trim name))
            (Str.toLowerCase (Str.trim (Str.trim (Str.toLowerCase (normalizeEmail email)))))
            (bcrypt_hash password salt)]))) as Hnd'.
  { rewrite map_app. apply NoDup_app. split; [done |]. split; [| apply NoDup_singleton].
    intros e He Hin. simpl in Hin. apply list_elem_of_singleton in Hin as ->.
    by apply (existsb_email_false _ _ Hnew). }
  by destruct (generateToken _ _ _).
Qed.

Lemma register_201_inversion env salt db name email password :
  status (register env salt db name email password).1 = 201 ->
  exists saved,
    users (register env salt db name email password).2 = (users db ++ [saved])%list
    /\ saved = mkUser (new_ObjectId env) (Str.trim name)
                 (Str.trim (Str.toLowerCase (normalizeEmail email)))
                 (bcrypt_hash password salt)
    /\ EmailPattern.test (u_email saved) = true
    /\ (u_email saved ∉ map u_email (users db))
    /\ body (register env salt db name email password).1
       = AuthSuccess "User registered successfully"
           (mkUserView (u_id saved) (u_name saved) (u_email saved))
           (jwt_sign env (u_id saved) (u_email saved) None (default "" (JWT_SECRET env))).
Proof.
  unfold register. destruct (bool_decide _); simpl; [| done].
  destruct (User_findOne_email _ _) as [[existing|]|error]; simpl; [done | |].
  2: { unfold register_catch. by destruct (String.eqb _ _). }
  destruct (User_save _ _ _ _ _ _) as [saved db'| |error] eqn:Hsave; simpl; [| done |].
  2: { unfold register_catch. by destruct (String.eqb _ _). }
  apply User_save_Inserted in Hsave as (Hsaved & -> & Hvalid & _ & Hnew).
  rewrite (stored_email (normalizeEmail email)) in Hsaved, Hvalid, Hnew.
  rewrite (trim_idem name) in Hsaved, Hvalid. subst saved.
  unfold generateToken. simpl. destruct (falsy (JWT_SECRET env)); simpl; [done |].
  intros _. eexists. split; [done |]. split; [done |]. simpl.
  split; [| split; [by apply existsb_email_false | done]].
  unfold UserSchema_validate in Hvalid.
  destruct (negb (Str.truthy (Str.trim name))); [done |].
  destruct (50 <? _)%nat; [done |]. simpl in Hvalid.
  destruct (negb (Str.truthy (Str.trim (Str.toLowerCase (normalizeEmail email)))));
    [done |].
  by destruct (EmailPattern.test _).
Qed.

(** X16.  Whenever the registration handler answers 201, it has added
    exactly one user: with the id given by the store, the trimmed name,
    the email lower-cased and trimmed, which satisfies the pattern of
    the schema and was the email of no user before, and as password the
    hash of the password, not the password. *)
Theorem register_created env salt db name email password :
  status (register env salt db name email password).1 = 201 ->
  exists saved,
    users (register env salt db name email password).2 = (users db ++ [saved])%list
    /\ saved = mkUser (new_ObjectId env) (Str.trim name)
                 (Str.trim (Str.toLowerCase (normalizeEmail email)))
                 (bcrypt_hash password salt)
    /\ EmailPattern.test (u_email saved) = true
    /\ (u_email saved ∉ map u_email (users db))
    /\ body (register env salt db name email password).1
       = AuthSuccess "User registered successfully"
           (mkUserView (u_id saved) (u_name saved) (u_email saved))
           (jwt_sign env (u_id saved) (u_email saved) None (default "" (JWT_SECRET env))).
Proof. exact (register_201_inversion env salt db name email password). Qed.

Lemma register_201_store_up env salt db name email password :
  status (register env salt db name email password).1 = 201 ->
  users_fault ((register env salt db name email password).2) = None.
Proof.
  unfold register. destruct (bool_decide _); simpl; [| done].
  unfold User_findOne_email.
  destruct (users_fault db) eqn:Hf; simpl.
  { unfold register_catch. simpl. by destruct (String.eqb _ _). }
  destruct (List.find _ _); simpl; [done |].
  destruct (User_save _ _ _ _ _ _) as [s d| |e] eqn:Hsave; simpl; [| done |].
  2: { unfold register_catch. by destruct (String.eqb _ _). }
  apply User_save_Inserted in Hsave as (_ & -> & _). simpl.
  by destruct (generateToken _ _ _).
Qed.

(** X17.  After a registration answered 201, a second registration
    whose email normalizes to the same lower-case text is answered 409
    and changes nothing (the normalized email carrying no white space
    around it). *)
Theorem register_twice_conflict env salt db name email password
    env2 salt2 name2 email2 password2 :
  status (register env salt db name email password).1 = 201 ->
  Str.trim (Str.toLowerCase (normalizeEmail email)) = Str.toLowerCase (normalizeEmail email) ->
  validateRegistration name2 email2 password2 = [] ->
  Str.toLowerCase (normalizeEmail email2) = Str.toLowerCase (normalizeEmail email) ->
  register env2 salt2 (register env salt db name email password).2 name2 email2 password2
  = (fail 409 "User with this email already exists",
     (register env salt db name email password).2).
Proof.
  intros H201 Htrim Hv2 Hsame.
  destruct (register_201_inversion _ _ _ _ _ _ H201) as (saved & Husers & Hsaved & _ & _ & _).
  pose proof (register_201_store_up _ _ _ _ _ _ H201) as Hup.
  set (db1 := (register env salt db name email password).2) in *.
  unfold register at 1. rewrite Hv2. simpl. rewrite Hsame.
  unfold User_findOne_email. rewrite Hup. simpl.
  destruct (List.find _ (users db1)) eqn:Hfind; simpl; [done |].
  exfalso. assert (In saved (users db1)) as Hin.
  { rewrite Husers. apply in_app_iff. right. by left. }
  pose proof (find_none _ _ Hfind saved Hin) as Hno. simpl in Hno.
  rewrite Hsaved in Hno. simpl in Hno. rewrite Htrim, String.eqb_refl in Hno. done.
Qed.

End Registration.

Section RegistrationMore.
Context `{Externals} `{Bcrypt}.

Lemma validateRegistration_nil name email password :
  validateRegistration name email password = [] ->
  isEmail email = true /\ (6 <= length (Str.chars password))%nat.
Proof.
  unfold validateRegistration.
  destruct ((2 <=? _)%nat && _); [| done]. destruct (isEmail email); [| done].
  destruct (6 <=? length (Str.chars password))%nat eqn:Hlen; [| done].
  intros _. split; [done |]. by apply Nat.leb_le.
Qed.

Lemma register_201_validated env salt db name email password :
  status (register env salt db name email password).1 = 201 ->
  validateRegistration name email password = [] /\ falsy (JWT_SECRET env) = false.
Proof.
  unfold register. destruct (bool_decide_reflect (validateRegistration name email password = []))
    as [Hv | Hv]; simpl; [| done].
  destruct (User_findOne_email _ _) as [[existing|]|error]; simpl; [done | |].
  2: { unfold register_catch. by destruct (String.eqb _ _). }
  destruct (User_save _ _ _ _ _ _) as [saved db'| |error]; simpl; [| done |].
  2: { unfold register_catch. by destruct (String.eqb _ _). }
  unfold generateToken. by destruct (falsy (JWT_SECRET env)).
Qed.

(** X18.  A user who has just been registered can log in: with the
    email and the password of a registration answered 201, the login
    handler answers 200 for the new user (the hash comparing equal to the
    password it was made from, and the normalized email carrying no white
    space around it). *)
Theorem register_then_login env salt db name email password env2 :
  status (register env salt db name email password).1 = 201 ->
  Str.trim (Str.toLowerCase (normalizeEmail email)) = Str.toLowerCase (normalizeEmail email) ->
  bcrypt_compare password (bcrypt_hash password salt) = true ->
  falsy (JWT_SECRET env2) = false ->
  exists token,
    login env2 (register env salt db name email password).2 email password
    = mkResponse 200
        (AuthSuccess "Login successful"
           (mkUserView (new_ObjectId env) (Str.trim name)
              (Str.toLowerCase (normalizeEmail email))) token).
Proof.
  intros H201 Htrim Hhash Hsecret.
  destruct (register_201_inversion _ _ _ _ _ _ H201) as (saved & Husers & Hsaved & _ & Hnew & _).
  pose proof (register_201_store_up _ _ _ _ _ _ H201) as Hup.
  destruct (register_201_validated _ _ _ _ _ _ H201) as [Hv _].
  apply validateRegistration_nil in Hv as [Hemail Hpw].
  set (db1 := (register env salt db name email password).2) in *.
  unfold login, validateLogin. rewrite Hemail. simpl shown_as.
  assert (Str.truthy password = true) as -> by (destruct password; simpl in *; [lia | done]).
  simpl. unfold User_findOne_email. rewrite Hup, Husers. simpl.
  rewrite (find_snoc_fresh _ (users db) saved).
  - simpl. unfold comparePassword. rewrite Hsaved. simpl. rewrite Hhash. simpl.
    unfold generateToken. rewrite Hsecret. simpl. rewrite Htrim. by eexists.
  - intros u Hu. apply String.eqb_neq. intros Heq. apply Hnew.
    rewrite Hsaved. simpl. rewrite Htrim, <- Heq. apply list_elem_of_fmap. eauto.
  - rewrite Hsaved. simpl. rewrite Htrim. apply String.eqb_refl.
Qed.

(** X19.  Without a configured secret, a registration that passes every
    check still stores the new user, and then answers 500
    [Registration failed], because the token cannot be issued. *)
Theorem register_without_secret env salt db name email password saved db' :
  falsy (JWT_SECRET env) = true ->
  validateRegistration name email password = [] ->
  User_findOne_email db (Str.toLowerCase (normalizeEmail email)) = Ok None ->
  User_save env salt db (Str.trim name)
    (Str.trim (Str.toLowerCase (normalizeEmail email))) password = Inserted saved db' ->
  register env salt db name email password = (fail 500 "Registration failed", db')
  /\ users db' = (users db ++ [saved])%list
  /\ u_password saved = bcrypt_hash password salt.
Proof.
  intros Hs Hv Hf Hsave. split.
  - unfold register. rewrite Hv. simpl. rewrite Hf, Hsave.
    unfold generateToken. by rewrite Hs.
  - apply User_save_Inserted in Hsave as (-> & -> & _). done.
Qed.

Lemma run_accepts r : forall s k,
  EmailPattern.run r s k = true ->
  exists pre rest,
    s = (pre ++ rest)%list
    /\ Forall (fun c => EmailPattern.accepts r c = true) pre
    /\ k rest = true.
Proof.
  induction r as [|f|a IHa b IHb|a IHa b IHb|a IHa]; intros s k; simpl.
  - intros Hk. by exists [], s.
  - destruct s as [|c s]; [done |]. intros [Hc Hk]%andb_prop.
    exists [c], s. by repeat constructor.
  - intros Hrun. apply IHa in Hrun as (pre1 & rest1 & -> & Hpre1 & Hrun).
    apply IHb in Hrun as (pre2 & rest2 & -> & Hpre2 & Hk).
    exists (pre1 ++ pre2)%list, rest2. split; [by rewrite <- app_assoc |]. split; [| done].
    apply Forall_app. split; eapply Forall_impl; eauto; simpl; intros c ->;
      [done | apply orb_true_r].
  - intros [Hrun | Hrun]%orb_prop.
    + apply IHa in Hrun as (pre & rest & -> & Hpre & Hk). exists pre, rest.
      split; [done |]. split; [| done]. eapply Forall_impl; eauto. by intros c ->.
    + apply IHb in Hrun as (pre & rest & -> & Hpre & Hk). exists pre, rest.
      split; [done |]. split; [| done]. eapply Forall_impl; eauto.
      intros c ->. apply orb_true_r.
  - generalize (length s) at 1. intros n. revert s.
    induction n as [|n IHn]; intros s.
    + rewrite orb_false_r. intros Hk. by exists [], s.
    + intros [Hk | Hrun]%orb_prop; [by exists [], s |].
      apply IHa in Hrun as (pre1 & rest1 & -> & Hpre1 & [_ Hrun]%andb_prop).
      apply IHn in Hrun as (pre2 & rest2 & -> & Hpre2 & Hk).
      exists (pre1 ++ pre2)%list, rest2. split; [by rewrite <- app_assoc |]. split; [| done].
      by apply Forall_app.
Qed.

(** Every character of a text the pattern of the schema accepts is a
    letter, a digit, an underscore, a dot, a dash or the at sign. *)
Lemma EmailPattern_alphabet s c :
  EmailPattern.test s = true -> c ∈ Str.chars s ->
  EmailPattern.is_word c = true \/ c = "."%char \/ c = "-"%char \/ c = "@"%char.
Proof.
  unfold EmailPattern.test. intros Hrun Hc.
  apply run_accepts in Hrun as (pre & rest & Hs & Hpre & Hrest).
  destruct rest; [| done]. rewrite app_nil_r in Hs. rewrite Hs in Hc.
  rewrite Forall_forall in Hpre. specialize (Hpre c Hc). simpl in Hpre.
  unfold EmailPattern.is_dot_or_dash, EmailPattern.is_char in Hpre.
  rewrite !orb_true_iff, !Ascii.eqb_eq in Hpre. intuition discriminate.
Qed.

Lemma UserSchema_validate_bad_email name email password :
  EmailPattern.test email = false ->
  exists failure failures, UserSchema_validate name email password = failure :: failures.
Proof.
  intros Ht. unfold UserSchema_validate. rewrite Ht. simpl.
  destruct (negb (Str.truthy name)); simpl; [by eauto |].
  destruct (50 <? _)%nat; simpl; [by eauto |].
  destruct (negb (Str.truthy email)); simpl; by eauto.
Qed.

(** X20.  An email that passes the validation of the request but holds,
    once normalized, a character other than a letter, a digit, an
    underscore, a dot, a dash or the at sign (a plus sign, say) is refused
    by the schema: the answer is 400 [Invalid data provided] and no user
    is stored. *)
Theorem register_rejects_foreign_character env salt db name email password c :
  validateRegistration name email password = [] ->
  User_findOne_email db (Str.toLowerCase (normalizeEmail email)) = Ok None ->
  c ∈ Str.chars (Str.trim (Str.toLowerCase (normalizeEmail email))) ->
  EmailPattern.is_word c = false ->
  c <> "."%char -> c <> "-"%char -> c <> "@"%char ->
  exists details,
    register env salt db name email password
    = (mkResponse 400 (FailureWith "Invalid data provided" details), db).
Proof.
  intros Hv Hf Hc Hw Hdot Hdash Hat.
  assert (EmailPattern.test (Str.trim (Str.toLowerCase (normalizeEmail email))) = false)
    as Htest.
  { destruct (EmailPattern.test _) eqn:Ht; [| done].
    destruct (EmailPattern_alphabet _ c Ht Hc) as [? | [? | [? | ?]]]; congruence. }
  unfold register. rewrite Hv. simpl. rewrite Hf.
  unfold User_save. rewrite trim_idem, stored_email.
  destruct (UserSchema_validate_bad_email (Str.trim name) _ password Htest)
    as (failure & failures & ->).
  by eexists.
Qed.

End RegistrationMore.

(** ** Client session *)

Section ClientSession.
Context `{Externals} `{Browser}.

(** X21.  The header the client builds from a stored token is the one
    the Express middleware reads that token back from: storing a
    non-empty token without spaces and asking for the header gives
    [Bearer <token>], of which the middleware extracts the token. *)
Theorem client_header_reaches_middleware (local : gmap string string) token :
  Str.truthy token = true -> free_of " " token = true ->
  getAuthHeader (setToken token local) = Some ("Bearer " ++ token)
  /\ header_token (getAuthHeader (setToken token local)) = Some token.
Proof.
  intros Ht Hw. unfold getAuthHeader, getToken, setToken.
  rewrite lookup_insert_eq, Ht. split; [done |]. by apply header_token_bearer.
Qed.

Lemma expiry_checks_agree now exp :
  (now <? exp * 1000) = negb (exp <=? seconds now).
Proof.
  unfold seconds.
  pose proof (Z.div_mod now 1000 ltac:(lia)) as Hdiv.
  pose proof (Z.mod_pos_bound now 1000 ltac:(lia)) as Hmod.
  destruct (Z.ltb_spec now (exp * 1000)), (Z.leb_spec exp (now / 1000)); simpl; lia.
Qed.

(** X22.  The client's own expiry test and the verification of the
    server agree: for a stored token that the server parses and finds
    correctly signed, and whose expiry the client reads as the server
    does, [isAuthenticated] holds at a given time exactly when
    [jwt.verify] accepts the token at that time. *)
Theorem isAuthenticated_agrees_with_verify env (local : gmap string string)
    token segment claims secret :
  getToken local = Some token -> Str.truthy token = true ->
  Str.split "." token !! 1%nat = Some segment ->
  payload_exp segment = Some (c_exp claims) ->
  jws_parse token = Some (claims, hmac secret claims) ->
  isAuthenticated (Date_now env) local = true
  <-> jwt_verify env token secret = Ok claims.
Proof.
  intros Hg Ht Hseg Hexp Hparse. unfold isAuthenticated, jwt_verify.
  rewrite Hg, Ht, Hseg, Hexp, Hparse, String.eqb_refl. simpl.
  rewrite expiry_checks_agree.
  by destruct (c_exp claims <=? seconds (Date_now env)).
Qed.

(** X23.  When the provider has initialized, loading is over and one of
    two things holds: the stored user is shown, the storage is as it
    was and its token is unexpired for the client; or nobody is shown
    beyond what was and the storage holds neither token nor user. *)
Theorem initializeAuth_outcome now (s s' : Session) :
  initializeAuth now s = Some s' ->
  isLoading s' = false
  /\ ((exists value, user s' = Some value /\ json_truthy value = true
                     /\ getUser (storage s) = Some (Some value)
                     /\ storage s' = storage s
                     /\ isAuthenticated now (storage s') = true)
      \/ (user s' = user s
          /\ getToken (storage s') = None
          /\ storage s' !! USER_KEY = None)).
Proof.
  unfold initializeAuth. destruct (getUser (storage s)) as [storedUser|] eqn:Hu; [| done].
  destruct (_ && _ && isAuthenticated now (storage s)) eqn:Hok; intros [= <-]; simpl.
  - split; [done |]. left.
    apply andb_prop in Hok as [[_ Huser]%andb_prop Hauth].
    destruct storedUser as [value|]; [| done]. by exists value.
  - split; [done |]. right. split; [done |].
    unfold getToken, removeUser, removeToken. split.
    + by rewrite lookup_delete_ne, lookup_delete_eq.
    + by rewrite lookup_delete_eq.
Qed.

(** X24.  After [logout] nobody is shown, no [Authorization] header is
    built, the client's test of authentication fails at any time, and
    the other keys of the storage are as they were. *)
Theorem provider_logout_clears now (s : Session) :
  user (provider_logout s) = None
  /\ getAuthHeader (storage (provider_logout s)) = None
  /\ isAuthenticated now (storage (provider_logout s)) = false
  /\ forall key, key <> TOKEN_KEY -> key <> USER_KEY ->
                 storage (provider_logout s) !! key = storage s !! key.
Proof.
  unfold provider_logout, getAuthHeader, isAuthenticated, getToken, removeUser, removeToken.
  simpl. rewrite lookup_delete_ne, lookup_delete_eq by done.
  repeat split. intros key Ht Hu. by rewrite !lookup_delete_ne.
Qed.

(** X25.  From a successful login to an authenticated request: the
    provider stores the token of the response, the header built from the
    storage carries it, and the Express middleware, given that header
    before the token expires and while the user exists, attaches the
    identity of the user who logged in. *)
Theorem login_then_request_authenticates env env2 db email (password : string) account secret
    (s : Session) :
  validateLogin email password = [] -> users_fault db = None ->
  List.find (fun u => String.eqb (u_email u) (Str.toLowerCase (normalizeEmail email)))
    (users db) = Some account ->
  bcrypt_compare password (u_password account) = true ->
  JWT_SECRET env = Some secret -> JWT_SECRET env2 = Some secret ->
  Str.truthy secret = true ->
  (let claims := issued_claims env (u_id account) (u_email account) in
   let token := jws_serialize claims (hmac secret claims) in
   Str.truthy token = true /\ free_of " " token = true
   /\ jws_parse token = Some (claims, hmac secret claims)) ->
  seconds (Date_now env2) < seconds (Date_now env) + SEVEN_DAYS ->
  User_findById db (u_id account) = Ok (Some account) ->
  exists s' header,
    provider_login (login env db email password) s = SignedIn s'
    /\ getAuthHeader (storage s') = Some header
    /\ authenticateToken env2 db (Some header)
       = Next (mkIdentity (u_id account) (u_email account)).
Proof.
  intros Hv Hup Hf Hpw Hs Hs2 Hts (Htok & Hfree & Hcodec) Hfresh Hstill.
  assert (login env db email password
          = mkResponse 200
              (AuthSuccess "Login successful"
                 (mkUserView (u_id account) (u_name account) (u_email account))
                 (jws_serialize (issued_claims env (u_id account) (u_email account))
                    (hmac secret (issued_claims env (u_id account) (u_email account))))))
    as ->.
  { rewrite (login_validated _ _ _ _ Hv). unfold User_findOne_email.
    rewrite Hup. simpl. rewrite Hf. unfold comparePassword. rewrite Hpw. simpl.
    by rewrite (generateToken_configured _ _ _ _ Hs Hts). }
  eexists _, _. split; [reflexivity |]. simpl.
  unfold getAuthHeader, getToken, setUser, setToken.
  rewrite lookup_insert_ne, lookup_insert_eq by done. rewrite Htok.
  split; [reflexivity |].
  rewrite (authenticateToken_with_token _ _ _ _ _ (header_token_bearer _ Hfree) Htok Hs2 Hts).
  rewrite (jwt_verify_valid _ _ _ _ Htok Hcodec Hfresh). simpl. by rewrite Hstill.
Qed.

(** X26.  A refused login reaches the form as one and the same error,
    whichever the cause: the provider throws the message of the server,
    [Invalid email or password], and stores nothing. *)
Theorem refused_login_error_is_uniform env db email (password : string) (s : Session) :
  validateLogin email password = [] -> users_fault db = None ->
  login_refused db email password ->
  provider_login (login env db email password) s = LoginError "Invalid email or password".
Proof.
  intros Hv Hup Hr. by rewrite (login_refused_response env db email password Hv Hup Hr).
Qed.

End ClientSession.

(** ** The serverless posts function *)

Section ServerlessPosts.
Context `{Externals} `{ApiPosts.Cloudinary}.




Lemma Post_find_sorted_posts_of adb db query :
  ApiPosts.api_posts adb = posts db -> ApiPosts.api_posts_fault adb = posts_fault db ->
  Post_find_sorted (ApiPosts.posts_of adb) query = Post_find_sorted db query.
Proof.
  intros Hp Hf. unfold Post_find_sorted, Post_find, ApiPosts.posts_of. simpl.
  by rewrite Hp, Hf.
Qed.

Lemma userMap_same_data oids (aus : list ApiPosts.ApiUser) (us : list User) :
  map (fun u => (ApiPosts.au_id u, ApiPosts.au_username u)) aus
  = map (fun u => (u_id u, u_name u)) us ->
  forall m : gmap string string,
    foldl (fun m user => <[ApiPosts.au_id user := ApiPosts.au_username user]> m) m
      (List.filter (fun u => existsb (String.eqb (ApiPosts.au_id u)) oids) aus)
    = foldl (fun m user => <[u_id user := u_name user]> m) m
        (List.filter (fun u => existsb (String.eqb (u_id u)) oids) us).
Proof.
  revert us. induction aus as [|au aus IH]; intros [|u us] Hmap m; try done.
  simpl in Hmap. injection Hmap as Hid Hname Hrest. simpl. rewrite Hid.
  destruct (existsb _ oids); simpl; [rewrite Hid, Hname |]; by apply IH.
Qed.

Lemma find_same_data oid (aus : list ApiPosts.ApiUser) (us : list User) :
  map (fun u => (ApiPosts.au_id u, ApiPosts.au_username u)) aus
  = map (fun u => (u_id u, u_name u)) us ->
  ApiPosts.au_username <$> List.find (has_id ApiPosts.au_id oid) aus
  = u_name <$> List.find (has_id u_id oid) us.
Proof.
  revert us. induction aus as [|au aus IH]; intros [|u us] Hmap; try done.
  simpl in Hmap. injection Hmap as Hid Hname Hrest. simpl.
  unfold has_id at 1 3. rewrite Hid.
  destruct (String.eqb (u_id u) oid); simpl; [by rewrite Hname | by apply IH].
Qed.

(** X29.  When the two variants look at the same data and the users
    can be read, the serverless feed and the Express feed answer alike:
    the same list of posts with the same names when the Express feed
    answers with a list, and 500 when it does not. *)
Theorem api_feed_agrees_with_express env adb db authHeader userId q type
    body_type body_content body_image :
  ApiPosts.same_data adb db -> users_fault db = None ->
  ApiPosts.handler env adb ApiPosts.GET authHeader userId q type
    body_type body_content body_image
  = (match body (get_posts db userId q type) with
     | PostList views => ApiPosts.mkApiResponse 200 (ApiPosts.Posts views)
     | _ => ApiPosts.mkApiResponse 500 (ApiPosts.Message "Internal server error")
     end, adb).
Proof.
  intros (Hposts & Hpf & Huf & Husers) Hup.
  unfold ApiPosts.handler, ApiPosts.handleGet, get_posts.
  rewrite (Post_find_sorted_posts_of adb db _ Hposts Hpf).
  destruct (Post_find_sorted db (build_query userId q type)) as [found|error]; simpl.
  2: { unfold posts_catch. by destruct (String.eqb _ _). }
  destruct (falsy userId); simpl.
  - rewrite batch_lookup_no_cast_error, Hup. unfold ApiPosts.User_find_in.
    rewrite (cast_all_valid _ (uniqueUserIds_valid found)). simpl.
    rewrite Huf, Hup. simpl. unfold ApiPosts.build_userMap, build_userMap.
    by rewrite (userMap_same_data _ _ _ Husers).
  - unfold ApiPosts.User_findById, User_findById.
    destruct (castObjectId _) as [oid|error]; simpl.
    2: { unfold posts_catch. by destruct (String.eqb _ _). }
    rewrite Huf, Hup. simpl.
    pose proof (find_same_data oid _ _ Husers) as Hfind.
    destruct (List.find _ (ApiPosts.api_users adb)), (List.find _ (users db));
      simpl in Hfind; try discriminate; [| done].
    injection Hfind as ->. done.
Qed.

(** X30.  When the users cannot be read, the serverless feed without
    [userId] answers 500, where the Express feed degrades to
    ["Unknown User"]: its lookup of the users has no [try] of its own. *)
Theorem api_feed_fails_on_lookup_failure env adb authHeader userId q type
    body_type body_content body_image name :
  ApiPosts.api_users_fault adb = Some name -> ApiPosts.api_posts_fault adb = None ->
  falsy userId = true ->
  ApiPosts.handler env adb ApiPosts.GET authHeader userId q type
    body_type body_content body_image
  = (ApiPosts.mkApiResponse 500 (ApiPosts.Message "Internal server error"), adb).
Proof.
  intros Hdown Hup Hu. unfold ApiPosts.handler, ApiPosts.handleGet.
  destruct (searchable q) eqn:Hq;
    [| by rewrite (Post_find_sorted_refused (ApiPosts.posts_of adb) userId q type Hq)].
  destruct (Post_find_sorted_available (ApiPosts.posts_of adb) userId q type Hup Hq)
    as (matches & _ & ->).
  simpl. rewrite Hu. unfold ApiPosts.User_find_in.
  rewrite (cast_all_valid _ (uniqueUserIds_valid _)). simpl. by rewrite Hdown.
Qed.

End ServerlessPosts.

(** ** The further properties on the concrete instance *)

Section MoreExamples.
Import Demo DemoMore.

Lemma delete_post_refused_witness :
  delete_post db ann_identity (p_id have_desk)
  = (fail 403 "You can only delete your own posts", db).
Proof.
  refine (delete_post_refused db ann_identity (p_id have_desk) (p_id have_desk) _ _ _);
    [reflexivity | reflexivity |].
  intros post Hfind. vm_compute in Hfind. injection Hfind as <-. vm_compute. discriminate.
Defined.

Lemma delete_post_own_witness :
  exists db',
    delete_post db ann_identity (p_id need_office)
    = (mkResponse 200 (Success "Post deleted successfully"), db')
    /\ users db' = users db
    /\ forall p, p ∈ posts db' <-> p ∈ posts db /\ p_id p <> p_id need_office.
Proof.
  refine (delete_post_own db ann_identity (p_id need_office) (p_id need_office)
            need_office _ _ _ _ _); try reflexivity.
  unfold posts_well_formed. apply (bool_decide_unpack _). by vm_compute.
Defined.

Lemma authenticateToken_unknown_subject_witness :
  authenticateToken (H := Demo.externals) env db (Some ("Bearer " ++ carl_token))
  = Respond (fail 401 "User not found").
Proof.
  refine (authenticateToken_unknown_subject (H := Demo.externals) env db secret
            (Some ("Bearer " ++ carl_token)) carl_token carl_claims _ _ _ _ _ _);
    reflexivity.
Defined.

Lemma login_success_token_verifies_witness :
  exists token,
    login (H := Demo.externals) issue_env db "A@X.com" "secret1"
    = mkResponse 200
        (AuthSuccess "Login successful" (mkUserView ann_id "Ann" "a@x.com") token)
    /\ forall verify,
         seconds (Date_now verify) < seconds (Date_now issue_env) + SEVEN_DAYS ->
         exists decoded,
           jwt_verify (H := Demo.externals) verify token secret = Ok decoded
           /\ c_userId decoded = ann_id /\ c_email decoded = "a@x.com".
Proof.
  refine (login_success_token_verifies (H := Demo.externals) issue_env db "A@X.com"
            "secret1" ann secret _ _ _ _ _ _ _); try reflexivity.
  split; reflexivity.
Defined.

Lemma login_401_is_uniform_witness :
  login (H := Demo.externals) env db "A@X.com" "secret2"
  = fail 401 "Invalid email or password".
Proof.
  refine (login_401_is_uniform (H := Demo.externals) env db "A@X.com" "secret2" _).
  reflexivity.
Defined.

Lemma login_without_secret_witness :
  login (H := Demo.externals) no_secret_env db "A@X.com" "secret1"
  = fail 500 "Login failed".
Proof.
  refine (login_without_secret (H := Demo.externals) no_secret_env db "A@X.com" "secret1"
            ann _ _ _ _ _); reflexivity.
Defined.

Lemma serverless_default_secret_witness :
  ApiAuthRequest.authenticateRequest (H := DemoMore.externals) no_secret_env
    (Some ("Bearer " ++ jwt_sign (H := DemoMore.externals) issue_env carl_id "c@x.com"
                          (Some "carl") "your-default-secret"))
  = (true, Some (mkApiIdentity carl_id "c@x.com" (Some "carl"))).
Proof.
  refine (serverless_default_secret (H := DemoMore.externals) no_secret_env issue_env
            carl_id "c@x.com" (Some "carl") _ _ _); try reflexivity.
  repeat split; reflexivity.
Defined.

End MoreExamples.

Section MoreExamples2.
Import Demo DemoMore.
Local Existing Instance Demo.externals.
Local Existing Instance DemoMore.bcrypt.
Local Existing Instance DemoMore.browser.
Local Existing Instance DemoMore.image_host_down.

Lemma demo_users_well_formed : users_well_formed db.
Proof.
  split; [apply (bool_decide_unpack _); by vm_compute |].
  intros u Hu. apply list_elem_of_In in Hu. simpl in Hu.
  destruct Hu as [<- | [<- | []]]; split; reflexivity.
Qed.

Lemma feed_names_resolved_witness :
  exists found,
    Post_find_sorted db (build_query None None None) = Ok found
    /\ StronglySorted newest_first found
    /\ get_posts db None None None
       = mkResponse 200
           (PostList
              (map (format_post
                      (fun post =>
                         match List.find (has_id u_id (p_userId post)) (users db) with
                         | Some user => u_name user
                         | None => "Unknown User"
                         end))
                 found)).
Proof.
  refine (feed_names_resolved db None None None demo_users_well_formed _ _ _ _); reflexivity.
Defined.

Lemma feed_names_degraded_witness :
  exists found,
    Post_find_sorted db_without_users (build_query None None None) = Ok found
    /\ get_posts db_without_users None None None
       = mkResponse 200 (PostList (map (format_post (fun _ => "Unknown User")) found)).
Proof.
  refine (feed_names_degraded db_without_users None None None "MongoNetworkError" _ _ _ _);
    reflexivity.
Defined.

Lemma create_post_blank_content_witness :
  exists details,
    create_post env db ann_identity "NEED" "   " None
    = (mkResponse 400 (FailureWith "Invalid data provided" details), db).
Proof.
  refine (create_post_blank_content env db ann_identity "NEED" "   " None ann _ _ _);
    reflexivity.
Defined.



Lemma register_keeps_emails_unique_witness :
  NoDup (map u_email (users (register env "salt" db "Zed" "Zed@X.com" "secret9").2))
  /\ posts (register env "salt" db "Zed" "Zed@X.com" "secret9").2 = posts db.
Proof.
  refine (register_keeps_emails_unique env "salt" db "Zed" "Zed@X.com" "secret9" _).
  apply (bool_decide_unpack _). by vm_compute.
Defined.

Lemma register_created_witness :
  exists saved,
    users (register env "salt" db "Zed" "Zed@X.com" "secret9").2 = (users db ++ [saved])%list
    /\ saved = mkUser (new_ObjectId env) (Str.trim "Zed")
                 (Str.trim (Str.toLowerCase (normalizeEmail "Zed@X.com")))
                 (bcrypt_hash "secret9" "salt")
    /\ EmailPattern.test (u_email saved) = true
    /\ (u_email saved ∉ map u_email (users db))
    /\ body (register env "salt" db "Zed" "Zed@X.com" "secret9").1
       = AuthSuccess "User registered successfully"
           (mkUserView (u_id saved) (u_name saved) (u_email saved))
           (jwt_sign env (u_id saved) (u_email saved) None (default "" (JWT_SECRET env))).
Proof.
  refine (register_created env "salt" db "Zed" "Zed@X.com" "secret9" _). reflexivity.
Defined.

Lemma register_twice_conflict_witness :
  register env "pepper" (register env "salt" db "Zed" "Zed@X.com" "secret9").2
    "Zedd" "ZED@x.com" "another1"
  = (fail 409 "User with this email already exists",
     (register env "salt" db "Zed" "Zed@X.com" "secret9").2).
Proof.
  refine (register_twice_conflict env "salt" db "Zed" "Zed@X.com" "secret9"
            env "pepper" "Zedd" "ZED@x.com" "another1" _ _ _ _); reflexivity.
Defined.

Lemma register_then_login_witness :
  exists token,
    login env (register env "salt" db "Zed" "Zed@X.com" "secret9").2 "Zed@X.com" "secret9"
    = mkResponse 200
        (AuthSuccess "Login successful"
           (mkUserView (new_ObjectId env) (Str.trim "Zed")
              (Str.toLowerCase (normalizeEmail "Zed@X.com"))) token).
Proof.
  refine (register_then_login env "salt" db "Zed" "Zed@X.com" "secret9" env _ _ _ _);
    reflexivity.
Defined.

Lemma register_without_secret_witness :
  register no_secret_env "salt" db "Zed" "Zed@X.com" "secret9"
  = (fail 500 "Registration failed", mkDb [ann; bob; zed] (posts db) None None)
  /\ users (mkDb [ann; bob; zed] (posts db) None None) = (users db ++ [zed])%list
  /\ u_password zed = bcrypt_hash "secret9" "salt".
Proof.
  refine (register_without_secret no_secret_env "salt" db "Zed" "Zed@X.com" "secret9"
            zed (mkDb [ann; bob; zed] (posts db) None None) _ _ _ _); reflexivity.
Defined.

Lemma register_rejects_foreign_character_witness :
  exists details,
    register env "salt" db "Zed" "z+1@x.com" "secret9"
    = (mkResponse 400 (FailureWith "Invalid data provided" details), db).
Proof.
  refine (register_rejects_foreign_character env "salt" db "Zed" "z+1@x.com" "secret9"
            "+"%char _ _ _ _ _ _ _); try reflexivity; try discriminate.
  apply list_elem_of_In. vm_compute. tauto.
Defined.

End MoreExamples2.

Section MoreExamples3.
Import Demo DemoMore.
Local Existing Instance Demo.externals.
Local Existing Instance DemoMore.browser.
Local Existing Instance DemoMore.image_host_down.

Lemma client_header_reaches_middleware_witness :
  getAuthHeader (setToken ann_token ∅) = Some ("Bearer " ++ ann_token)
  /\ header_token (getAuthHeader (setToken ann_token ∅)) = Some ann_token.
Proof.
  refine (client_header_reaches_middleware ∅ ann_token _ _); reflexivity.
Defined.

Lemma isAuthenticated_agrees_with_verify_witness :
  isAuthenticated (Date_now env) signed_in_storage = true
  <-> jwt_verify env ann_token secret = Ok ann_claims.
Proof.
  refine (isAuthenticated_agrees_with_verify env signed_in_storage ann_token
            (show (issued_at + SEVEN_DAYS)) ann_claims secret _ _ _ _ _);
    by vm_compute.
Defined.

Lemma initializeAuth_outcome_witness :
  isLoading (mkSession signed_in_storage (Some ann_view) false) = false
  /\ ((exists value,
         user (mkSession signed_in_storage (Some ann_view) false) = Some value
         /\ json_truthy value = true
         /\ getUser (storage stored_session) = Some (Some value)
         /\ storage (mkSession signed_in_storage (Some ann_view) false)
            = storage stored_session
         /\ isAuthenticated (Date_now env)
              (storage (mkSession signed_in_storage (Some ann_view) false)) = true)
      \/ (user (mkSession signed_in_storage (Some ann_view) false) = user stored_session
          /\ getToken (storage (mkSession signed_in_storage (Some ann_view) false)) = None
          /\ storage (mkSession signed_in_storage (Some ann_view) false) !! USER_KEY = None)).
Proof.
  refine (initializeAuth_outcome (Date_now env) stored_session
            (mkSession signed_in_storage (Some ann_view) false) _).
  by vm_compute.
Defined.

Lemma login_then_request_authenticates_witness :
  exists s' header,
    provider_login (login issue_env db "A@X.com" "secret1") stored_session = SignedIn s'
    /\ getAuthHeader (storage s') = Some header
    /\ authenticateToken env db (Some header) = Next (mkIdentity ann_id "a@x.com").
Proof.
  refine (login_then_request_authenticates issue_env env db "A@X.com" "secret1" ann secret
            stored_session _ _ _ _ _ _ _ _ _ _); try reflexivity.
  repeat split; reflexivity.
Defined.

Lemma refused_login_error_is_uniform_witness :
  provider_login (login env db "zed@x.com" "secret1") stored_session
  = LoginError "Invalid email or password".
Proof.
  refine (refused_login_error_is_uniform env db "zed@x.com" "secret1" stored_session _ _ _);
    try reflexivity.
  apply no_such_email. reflexivity.
Defined.


Lemma api_feed_agrees_with_express_witness :
  ApiPosts.handler env api_db ApiPosts.GET None None (Some "office") None "" "" None
  = (match body (get_posts db None (Some "office") None) with
     | PostList views => ApiPosts.mkApiResponse 200 (ApiPosts.Posts views)
     | _ => ApiPosts.mkApiResponse 500 (ApiPosts.Message "Internal server error")
     end, api_db).
Proof.
  refine (api_feed_agrees_with_express env api_db db None None (Some "office") None
            "" "" None _ _); [| reflexivity].
  repeat split; reflexivity.
Defined.

Lemma api_feed_fails_on_lookup_failure_witness :
  ApiPosts.handler env api_db_without_users ApiPosts.GET None None None None "" "" None
  = (ApiPosts.mkApiResponse 500 (ApiPosts.Message "Internal server error"),
     api_db_without_users).
Proof.
  refine (api_feed_fails_on_lookup_failure env api_db_without_users None None None None
            "" "" None "MongoNetworkError" _ _ _); reflexivity.
Defined.

End MoreExamples3.
